(** * CRM_Telecalling: the lead store, role scoping, merge, and the
      dashboard helpers (scoring, duplicate detection, filters, alerts)

    The development embeds the request handlers of [backend/src/index.js]
    and the helpers of [frontend/src/pages/AdminDashboard.jsx].

    Conventions of the embedding.
    - A request body is the JSON object express hands to the handler; a
      property that is absent reads as [None] (JavaScript's undefined).
      JSON numbers are integers: no handler computes with a fraction.
    - A table is the list of its rows in rowid order.  TEXT columns hold
      [option string] (NULL or text), INTEGER columns [option Z].  The id
      of a route ([req.params.id]) is the integer its text denotes.
    - A text that stands for a time is kept as what [new Date] reads from
      it.  An instant ([created_at], the bounds of a date filter,
      [new Date()]) is its number of milliseconds since the epoch.  A date
      alone (YYYY-MM-DD, as in [next_follow_up] or in the text
      [toISOString().slice(0, 10)]) is its day number since the epoch, and
      [new Date] of it is UTC midnight of that day; two such texts are the
      same text exactly when the days are the same.
    - Strings are byte strings; [toLowerCase] and [trim] act on ASCII
      (the letters A-Z, the white space U+0009..U+000D and U+0020).
    - Storage failures of sqlite are not modelled, apart from the UNIQUE
      constraint on [users.email]; a handler's callback therefore runs with
      [err] unset unless that constraint is hit.
    - [Math.random] is not modelled: [computeScore] takes the value of
      [Math.floor(Math.random() * 10)] as an argument.
    - A password hash and a token are symbolic.  A hash matches the
      passwords that bcrypt reads as the one hashed: those with the same
      key material, the first 72 bytes of the text closed by a zero byte
      and repeated.  A token verifies when [jwt.sign] made it; its eight
      hours of validity are the matter of [Lifetime], and a request
      elsewhere carries its token within them. *)

From Stdlib Require Import ZArith List String Ascii Bool Lia.
From Stdlib Require Import Permutation Sorted DecimalString.
Import ListNotations.
Local Open Scope string_scope.
Local Open Scope Z_scope.
#[local] Set Warnings "-register-all".

(** ** The JavaScript values the handlers see *)

Module JS.

Inductive json :=
| JNull
| JBool (b : bool)
| JNum (n : Z)
| JStr (s : string)
| JArr (items : list json)
| JObj (props : list (string * json)).

(** An object is its list of own properties, in insertion order (the
    keys of an object that comes out of [JSON.parse] are distinct). *)
Definition object := list (string * json).

(** [o.k]: the first property named [k], undefined when there is none. *)
Fixpoint get (o : object) (k : string) : option json :=
  match o with
  | [] => None
  | (k', v) :: o' => if String.eqb k' k then Some v else get o' k
  end.

Definition Object_keys (o : object) : list string := map fst o.

(** [xs.includes(k)] on an array of strings. *)
Definition includes (xs : list string) (k : string) : bool :=
  existsb (String.eqb k) xs.

(** ToBoolean. *)
Definition truthy (v : json) : bool :=
  match v with
  | JNull => false
  | JBool b => b
  | JNum n => negb (Z.eqb n 0)
  | JStr s => negb (String.eqb s EmptyString)
  | JArr _ | JObj _ => true
  end.

Definition truthy_opt (v : option json) : bool :=
  match v with
  | Some v => truthy v
  | None => false
  end.

(** [v || d]. *)
Definition or_else (v : option json) (d : json) : json :=
  match v with
  | Some v => if truthy v then v else d
  | None => d
  end.

(** [s || d] on a TEXT column value. *)
Definition text_or (s : option string) (d : string) : string :=
  match s with
  | Some EmptyString | None => d
  | Some s => s
  end.

Definition text_truthy (s : option string) : bool :=
  match s with
  | Some EmptyString | None => false
  | Some _ => true
  end.

Definition int_truthy (n : option Z) : bool :=
  match n with
  | Some n => negb (Z.eqb n 0)
  | None => false
  end.

(** Decimal text of an integer. *)
Definition decimal (n : Z) : string := NilZero.string_of_int (Z.to_int n).

Definition join (sep : string) (parts : list string) : string :=
  String.concat sep parts.

(** [String(v)]. *)
Fixpoint toString (v : json) : string :=
  match v with
  | JNull => "null"
  | JBool true => "true"
  | JBool false => "false"
  | JNum n => decimal n
  | JStr s => s
  | JArr items =>
      join "," (map (fun x => match x with JNull => EmptyString | _ => toString x end) items)
  | JObj _ => "[object Object]"
  end.

Definition dquote : ascii := ascii_of_nat 34.
Definition backslash : ascii := ascii_of_nat 92.

Definition hex_digit (n : nat) : ascii :=
  if Nat.ltb n 10 then ascii_of_nat (48 + n) else ascii_of_nat (87 + n).

(** The escape JSON.stringify writes for one character of a string. *)
Definition escape_char (c : ascii) : string :=
  let n := nat_of_ascii c in
  if Nat.eqb n 34 then String backslash (String dquote EmptyString)
  else if Nat.eqb n 92 then String backslash (String backslash EmptyString)
  else if Nat.eqb n 8 then String backslash "b"
  else if Nat.eqb n 9 then String backslash "t"
  else if Nat.eqb n 10 then String backslash "n"
  else if Nat.eqb n 12 then String backslash "f"
  else if Nat.eqb n 13 then String backslash "r"
  else if Nat.ltb n 32 then
    String backslash
      (String "u" (String "0" (String "0"
         (String (hex_digit (Nat.div n 16)) (String (hex_digit (Nat.modulo n 16)) EmptyString)))))
  else String c EmptyString.

Fixpoint escape (s : string) : string :=
  match s with
  | EmptyString => EmptyString
  | String c s' => escape_char c ++ escape s'
  end.

Definition quote (s : string) : string :=
  String dquote (escape s ++ String dquote EmptyString).

Fixpoint JSON_stringify (v : json) : string :=
  match v with
  | JNull => "null"
  | JBool true => "true"
  | JBool false => "false"
  | JNum n => decimal n
  | JStr s => quote s
  | JArr items => "[" ++ join "," (map JSON_stringify items) ++ "]"
  | JObj props =>
      "{" ++ join "," (map (fun kv => quote (fst kv) ++ ":" ++ JSON_stringify (snd kv)) props) ++ "}"
  end.

(** [toLowerCase] and [trim], on ASCII. *)
Definition lower_char (c : ascii) : ascii :=
  let n := nat_of_ascii c in
  if andb (Nat.leb 65 n) (Nat.leb n 90) then ascii_of_nat (n + 32) else c.

Fixpoint toLowerCase (s : string) : string :=
  match s with
  | EmptyString => EmptyString
  | String c s' => String (lower_char c) (toLowerCase s')
  end.

Definition is_space (c : ascii) : bool :=
  let n := nat_of_ascii c in
  orb (Nat.eqb n 32) (andb (Nat.leb 9 n) (Nat.leb n 13)).

Fixpoint trimStart (s : string) : string :=
  match s with
  | EmptyString => EmptyString
  | String c s' => if is_space c then trimStart s' else s
  end.

Fixpoint trimEnd (s : string) : string :=
  match s with
  | EmptyString => EmptyString
  | String c s' =>
      match trimEnd s' with
      | EmptyString => if is_space c then EmptyString else String c EmptyString
      | t => String c t
      end
  end.

Definition trim (s : string) : string := trimEnd (trimStart s).

(** A string of white space only. *)
Fixpoint all_space (s : string) : bool :=
  match s with
  | EmptyString => true
  | String c s' => is_space c && all_space s'
  end.

End JS.

(** ** backend/src/index.js *)

Module Backend.
Import JS.

(** *** Tables *)

Inductive pwhash := Bcrypt (password : string).

Module User.
Record t := {
  id : Z;
  name : option string;
  email : option string;
  password : pwhash;
  role : option string;
  theme : option string;
  daily_target : option Z;
  suspended : Z;
  created_at : Z
}.
End User.

Module Lead.
Record t := {
  id : Z;
  name : option string;
  phone : option string;
  email : option string;
  type : option string;
  source : option string;
  score : option Z;
  status : option string;
  assigned_to : option Z;
  next_follow_up : option Z;
  remarks : option string;
  notes : option string;
  created_at : option Z
}.
End Lead.

Module Call.
Record t := {
  id : Z;
  lead_id : option Z;
  user_id : option Z;
  lead_name : option string;
  user_name : option string;
  outcome : option string;
  notes : option string;
  duration : option Z;
  quality : option Z;
  created_at : Z
}.
End Call.

Module Audit.
Record t := {
  id : Z;
  entity : string;
  entity_id : string;
  action : string;
  details : string;
  performed_by : option string;
  created_at : Z
}.
End Audit.

(** The database: the four tables the handlers below touch and, for each,
    the last rowid AUTOINCREMENT handed out. *)
Record db := {
  users : list User.t;
  leads : list Lead.t;
  call_logs : list Call.t;
  audit_logs : list Audit.t;
  seq_users : Z;
  seq_leads : Z;
  seq_calls : Z;
  seq_audit : Z
}.

Definition with_leads (rows : list Lead.t) (st : db) : db :=
  {| users := users st; leads := rows; call_logs := call_logs st;
     audit_logs := audit_logs st; seq_users := seq_users st;
     seq_leads := seq_leads st; seq_calls := seq_calls st; seq_audit := seq_audit st |}.

(** *** Binding a JavaScript value to a column *)

(** What a TEXT column keeps of a bound value: numbers are stored in text
    form, undefined and null as NULL. *)
Definition bind_text (v : option json) : option string :=
  match v with
  | None | Some JNull => None
  | Some (JBool b) => Some (if b then "1" else "0")
  | Some (JNum n) => Some (decimal n)
  | Some (JStr s) => Some s
  | Some w => Some (toString w)
  end.

(** Plain decimal text read as an integer. *)
Definition int_of_text (s : string) : option Z :=
  option_map Z.of_int (NilZero.int_of_string s).

(** What an INTEGER column (or the day number of a DATE column) keeps;
    a value that is no integer lies outside the typed rows and reads
    as NULL. *)
Definition bind_int (v : option json) : option Z :=
  match v with
  | None | Some JNull => None
  | Some (JBool b) => Some (if b then 1 else 0)
  | Some (JNum n) => Some n
  | Some (JStr s) => int_of_text s
  | Some _ => None
  end.

(** [id = ?] for an INTEGER PRIMARY KEY against a bound value. *)
Definition id_eq (id : Z) (v : json) : bool :=
  match bind_int (Some v) with
  | Some n => Z.eqb id n
  | None => false
  end.

(** [col = ?] on a nullable INTEGER column: NULL equals nothing. *)
Definition col_eq (c : option Z) (n : Z) : bool :=
  match c with
  | Some m => Z.eqb m n
  | None => false
  end.

(** *** Credentials and middleware *)

(** [req.user]: the payload of the bearer token. *)
Module Payload.
Record t := {
  id : Z;
  name : option json;
  email : json;
  role : json;
  theme : option json
}.
End Payload.

(** A token is kept symbolically: [jwt.sign] wraps the payload and
    [jwt.verify] accepts exactly what [jwt.sign] produced (the secret is
    not modelled; a request here carries its token within the eight hours
    of its validity, which [Lifetime] adds). *)
Inductive token :=
| Signed (payload : Payload.t)
| Unsigned (raw : string).

Definition jwt_sign (payload : Payload.t) : token := Signed payload.

Definition jwt_verify (t : token) : option Payload.t :=
  match t with
  | Signed payload => Some payload
  | Unsigned _ => None
  end.

Inductive reply :=
| Data_rows (rows : list Lead.t)
| Data_row (row : Lead.t)
| Data_id (id : Z)
| Success
| Imported (n : Z)
| Session (t : token) (user : Payload.t).

(** Either [res.json(reply)] or [res.status(status).json({ error })]. *)
Inductive response :=
| Json (r : reply)
| Error (status : Z) (error : string).

Definition col_json (s : option string) : json :=
  match s with
  | Some s => JStr s
  | None => JNull
  end.

Definition text_eqb (a b : option string) : bool :=
  match a, b with
  | Some x, Some y => String.eqb x y
  | _, _ => false
  end.

(** [authMiddleware]: the caller a request runs as, or the 401 it gets.
    [production] is [process.env.NODE_ENV === 'production']. *)
Definition authMiddleware (production : bool) (st : db) (auth : option token)
  : Payload.t + response :=
  match auth with
  | None =>
      if production then inr (Error 401 "Missing token")
      else
        match find (fun u => text_eqb (User.email u) (Some "admin@crm.com")) (users st) with
        | Some row =>
            inl {| Payload.id := User.id row;
                   Payload.name := Some (col_json (User.name row));
                   Payload.email := col_json (User.email row);
                   Payload.role := col_json (User.role row);
                   Payload.theme := None |}
        | None => inr (Error 401 "Missing token (dev-mode failed to auto-auth)")
        end
  | Some t =>
      match jwt_verify t with
      | Some payload => inl payload
      | None => inr (Error 401 "Invalid token")
      end
  end.

(** [roles.includes(req.user.role)]. *)
Definition has_role (roles : list string) (user : Payload.t) : bool :=
  match Payload.role user with
  | JStr r => includes roles r
  | _ => false
  end.

(** [requireRole(...roles)] in front of a handler. *)
Definition requireRole (roles : list string) (user : Payload.t)
  (next : response * db) (st : db) : response * db :=
  if has_role roles user then next else (Error 403 "Forbidden", st).

(** [(req.user && req.user.email) || 'system']. *)
Definition performer (user : Payload.t) : json :=
  or_else (Some (Payload.email user)) (JStr "system").

(** [audit(entity, entityId, action, details, performedBy)]. *)
Definition audit (now : Z) (entity : string) (entityId : json) (action : string)
  (details : json) (performedBy : json) (st : db) : db :=
  let row :=
    {| Audit.id := seq_audit st + 1;
       Audit.entity := entity;
       Audit.entity_id := toString (or_else (Some entityId) (JStr EmptyString));
       Audit.action := action;
       Audit.details := match details with JStr s => s | d => JSON_stringify d end;
       Audit.performed_by := bind_text (Some performedBy);
       Audit.created_at := now |} in
  {| users := users st; leads := leads st; call_logs := call_logs st;
     audit_logs := (audit_logs st ++ [row])%list; seq_users := seq_users st;
     seq_leads := seq_leads st; seq_calls := seq_calls st;
     seq_audit := seq_audit st + 1 |}.

(** *** POST /api/auth/register *)

Definition payload_json (u : Payload.t) : json :=
  JObj ([("id", JNum (Payload.id u))]
        ++ match Payload.name u with Some v => [("name", v)] | None => [] end
        ++ [("email", Payload.email u); ("role", Payload.role u)]
        ++ match Payload.theme u with Some v => [("theme", v)] | None => [] end)%list.

Definition insert_user (row : User.t) (st : db) : db :=
  {| users := (users st ++ [row])%list; leads := leads st; call_logs := call_logs st;
     audit_logs := audit_logs st; seq_users := User.id row;
     seq_leads := seq_leads st; seq_calls := seq_calls st; seq_audit := seq_audit st |}.

Definition register (now : Z) (st : db) (body : object) : response * db :=
  let name := get body "name" in
  let email := get body "email" in
  let password := get body "password" in
  let role := get body "role" in
  let theme := get body "theme" in
  match email, password with
  | Some email', Some (JStr pw) =>
      if negb (truthy email') || negb (truthy (JStr pw))
      then (Error 400 "Email & password required", st)
      else
        let row :=
          {| User.id := seq_users st + 1;
             User.name := bind_text (Some (or_else name (JStr EmptyString)));
             User.email := bind_text email;
             User.password := Bcrypt pw;
             User.role := bind_text (Some (or_else role (JStr "telecaller")));
             User.theme := bind_text (Some (or_else theme (JStr "light")));
             User.daily_target := None;
             User.suspended := 0;
             User.created_at := now |} in
        if existsb (fun u => text_eqb (User.email u) (User.email row)) (users st)
        then (Error 400 "SQLITE_CONSTRAINT: UNIQUE constraint failed: users.email", st)
        else
          let user :=
            {| Payload.id := User.id row;
               Payload.name := name;
               Payload.email := email';
               Payload.role := or_else role (JStr "telecaller");
               Payload.theme := Some (or_else theme (JStr "light")) |} in
          let t := jwt_sign user in
          let st' :=
            audit now "user" (JNum (Payload.id user)) "create"
              (JObj [("user", payload_json user)]) (Payload.email user)
              (insert_user row st) in
          (Json (Session t user), st')
  | _, _ =>
      if negb (truthy_opt email) || negb (truthy_opt password)
      then (Error 400 "Email & password required", st)
      else (Error 500 "Illegal arguments", st)
  end.

(** *** Leads *)

(** [ORDER BY created_at DESC]: NULL sorts below every instant. *)
Definition instant_leb (a b : option Z) : bool :=
  match a, b with
  | None, _ => true
  | Some _, None => false
  | Some x, Some y => Z.leb x y
  end.

Fixpoint insert_desc (x : Lead.t) (rows : list Lead.t) : list Lead.t :=
  match rows with
  | [] => [x]
  | y :: rows' =>
      if instant_leb (Lead.created_at y) (Lead.created_at x)
      then x :: y :: rows'
      else y :: insert_desc x rows'
  end.

Definition order_by_created_at_desc (rows : list Lead.t) : list Lead.t :=
  fold_right insert_desc [] rows.

(** [req.user.role === 'telecaller']. *)
Definition is_telecaller (user : Payload.t) : bool :=
  match Payload.role user with
  | JStr r => String.eqb r "telecaller"
  | _ => false
  end.

(** [SELECT * FROM leads], with [WHERE assigned_to=?] for a telecaller. *)
Definition select_leads (st : db) (user : Payload.t) : list Lead.t :=
  if is_telecaller user
  then filter (fun l => col_eq (Lead.assigned_to l) (Payload.id user)) (leads st)
  else leads st.

(** GET /api/leads *)
Definition get_leads (st : db) (user : Payload.t) : response :=
  Json (Data_rows (order_by_created_at_desc (select_leads st user))).

(** Newest first: the order [ORDER BY created_at DESC] asks for. *)
Definition newer_first (x y : Lead.t) : Prop :=
  instant_leb (Lead.created_at y) (Lead.created_at x) = true.

(** GET /api/leads/:id *)
Definition get_lead (st : db) (user : Payload.t) (id : Z) : response :=
  match find (fun l => Z.eqb (Lead.id l) id) (leads st) with
  | Some row => Json (Data_row row)
  | None => Error 404 "Lead not found"
  end.

Definition insert_lead (row : Lead.t) (st : db) : db :=
  {| users := users st; leads := (leads st ++ [row])%list; call_logs := call_logs st;
     audit_logs := audit_logs st; seq_users := seq_users st;
     seq_leads := Lead.id row; seq_calls := seq_calls st; seq_audit := seq_audit st |}.

(** POST /api/leads *)
Definition post_lead (now : Z) (st : db) (user : Payload.t) (body : object)
  : response * db :=
  let row :=
    {| Lead.id := seq_leads st + 1;
       Lead.name := bind_text (get body "name");
       Lead.phone := bind_text (get body "phone");
       Lead.email := bind_text (get body "email");
       Lead.type := bind_text (get body "type");
       Lead.source := bind_text (get body "source");
       Lead.score := bind_int (Some (or_else (get body "score") JNull));
       Lead.status := bind_text (Some (or_else (get body "status") (JStr "new")));
       Lead.assigned_to := bind_int (Some (or_else (get body "assigned_to") JNull));
       Lead.next_follow_up := bind_int (Some (or_else (get body "next_follow_up") JNull));
       Lead.remarks := bind_text (Some (or_else (get body "remarks") (JStr EmptyString)));
       Lead.notes := Some (JSON_stringify (or_else (get body "notes") (JArr [])));
       Lead.created_at := Some now |} in
  (Json (Data_id (Lead.id row)),
   audit now "lead" (JNum (Lead.id row)) "create" (JObj body) (performer user)
     (insert_lead row st)).

(** The columns PUT /api/leads/:id may set. *)
Definition allowed : list string :=
  ["name"; "phone"; "email"; "type"; "source"; "score"; "status";
   "assigned_to"; "next_follow_up"; "remarks"; "notes"].

(** The body without the properties the allow-list does not name. *)
Definition known_fields (body : object) : object :=
  filter (fun kv => includes allowed (fst kv)) body.

(** [SET k = ?] on one row, with the value bound for it. *)
Definition set_col (k : string) (v : option json) (l : Lead.t) : Lead.t :=
  let 'Lead.Build_t id name phone email type source score status assigned_to
         next_follow_up remarks notes created_at := l in
  if String.eqb k "name" then
    Lead.Build_t id (bind_text v) phone email type source score status assigned_to next_follow_up remarks notes created_at
  else if String.eqb k "phone" then
    Lead.Build_t id name (bind_text v) email type source score status assigned_to next_follow_up remarks notes created_at
  else if String.eqb k "email" then
    Lead.Build_t id name phone (bind_text v) type source score status assigned_to next_follow_up remarks notes created_at
  else if String.eqb k "type" then
    Lead.Build_t id name phone email (bind_text v) source score status assigned_to next_follow_up remarks notes created_at
  else if String.eqb k "source" then
    Lead.Build_t id name phone email type (bind_text v) score status assigned_to next_follow_up remarks notes created_at
  else if String.eqb k "score" then
    Lead.Build_t id name phone email type source (bind_int v) status assigned_to next_follow_up remarks notes created_at
  else if String.eqb k "status" then
    Lead.Build_t id name phone email type source score (bind_text v) assigned_to next_follow_up remarks notes created_at
  else if String.eqb k "assigned_to" then
    Lead.Build_t id name phone email type source score status (bind_int v) next_follow_up remarks notes created_at
  else if String.eqb k "next_follow_up" then
    Lead.Build_t id name phone email type source score status assigned_to (bind_int v) remarks notes created_at
  else if String.eqb k "remarks" then
    Lead.Build_t id name phone email type source score status assigned_to next_follow_up (bind_text v) notes created_at
  else if String.eqb k "notes" then
    Lead.Build_t id name phone email type source score status assigned_to next_follow_up remarks (bind_text v) created_at
  else l.

(** [UPDATE leads SET f1 = ?, ... WHERE id = ?]. *)
Definition update_leads (assignments : list (string * option json)) (id : Z)
  (rows : list Lead.t) : list Lead.t :=
  map (fun l =>
         if Z.eqb (Lead.id l) id
         then fold_left (fun l kv => set_col (fst kv) (snd kv) l) assignments l
         else l) rows.

(** PUT /api/leads/:id *)
Definition put_lead (now : Z) (st : db) (user : Payload.t) (id : Z) (body : object)
  : response * db :=
  let fields := filter (fun k => includes allowed k) (Object_keys body) in
  let vals :=
    map (fun k =>
           if String.eqb k "notes"
           then option_map (fun v => JStr (JSON_stringify v)) (get body k)
           else get body k) fields in
  if Nat.eqb (List.length fields) 0
  then (Error 400 "No updatable fields", st)
  else
    (Json Success,
     audit now "lead" (JStr (decimal id)) "update" (JObj body) (performer user)
       (with_leads (update_leads (combine fields vals) id (leads st)) st)).

(** DELETE /api/leads/:id, behind [requireRole]. *)
Definition delete_lead (now : Z) (st : db) (user : Payload.t) (id : Z)
  : response * db :=
  (Json Success,
   audit now "lead" (JStr (decimal id)) "delete" JNull (performer user)
     (with_leads (filter (fun l => negb (Z.eqb (Lead.id l) id)) (leads st)) st)).

(** What [l.k] reads on an element of the imported array: a property of an
    object, undefined on any other value, and a TypeError ([None]) on
    null. *)
Definition props_of (l : json) : option object :=
  match l with
  | JObj props => Some props
  | JNull => None
  | _ => Some []
  end.

Definition imported_row (now : Z) (st : db) (l : object) : Lead.t :=
  {| Lead.id := seq_leads st + 1;
     Lead.name := bind_text (Some (or_else (get l "name") (JStr EmptyString)));
     Lead.phone := bind_text (Some (or_else (get l "phone") (JStr EmptyString)));
     Lead.email := bind_text (Some (or_else (get l "email") (JStr EmptyString)));
     Lead.type := bind_text (Some (or_else (get l "type") (JStr EmptyString)));
     Lead.source := bind_text (Some (or_else (get l "source") (JStr EmptyString)));
     Lead.score := bind_int (Some (or_else (get l "score") JNull));
     Lead.status := bind_text (Some (or_else (get l "status") (JStr "new")));
     Lead.assigned_to := bind_int (Some (or_else (get l "assigned_to") JNull));
     Lead.next_follow_up := bind_int (Some (or_else (get l "next_follow_up") JNull));
     Lead.remarks := bind_text (Some (or_else (get l "remarks") (JStr EmptyString)));
     Lead.notes := Some (JSON_stringify (or_else (get l "notes") (JArr [])));
     Lead.created_at := Some now |}.

(** [incoming.forEach(l => stmt.run([...]))]: the rows queued before the
    first element that throws are inserted; the flag tells whether the loop
    ran to its end. *)
Fixpoint run_import (now : Z) (incoming : list json) (st : db) : bool * db :=
  match incoming with
  | [] => (true, st)
  | l :: rest =>
      match props_of l with
      | Some props => run_import now rest (insert_lead (imported_row now st props) st)
      | None => (false, st)
      end
  end.

(** POST /api/leads/import, behind [requireRole]. *)
Definition import_leads (now : Z) (st : db) (user : Payload.t) (body : object)
  : response * db :=
  match get body "leads" with
  | Some (JArr incoming) =>
      let n := Z.of_nat (List.length incoming) in
      match run_import now incoming st with
      | (true, st') =>
          (Json (Imported n),
           audit now "lead" (JStr EmptyString) "import" (JObj [("count", JNum n)])
             (performer user) st')
      | (false, st') => (Error 500 "TypeError", st')
      end
  | _ => (Error 400 "Expected leads: []", st)
  end.

(** POST /api/leads/merge, behind [requireRole]. *)
Definition merge_leads (now : Z) (st : db) (user : Payload.t) (body : object)
  : response * db :=
  match get body "keepId", get body "mergeIds" with
  | Some keepId, Some (JArr mergeIds) =>
      if negb (truthy keepId)
      then (Error 400 "keepId and mergeIds required", st)
      else
        (Json Success,
         audit now "lead" keepId "merge"
           (JObj [("keep", keepId); ("removed", JArr mergeIds)]) (performer user)
           (with_leads
              (filter (fun l => negb (existsb (id_eq (Lead.id l)) mergeIds)) (leads st))
              st))
  | _, _ => (Error 400 "keepId and mergeIds required", st)
  end.

(** *** Calls *)

Definition insert_call (row : Call.t) (st : db) : db :=
  {| users := users st; leads := leads st; call_logs := (call_logs st ++ [row])%list;
     audit_logs := audit_logs st; seq_users := seq_users st;
     seq_leads := seq_leads st; seq_calls := Call.id row; seq_audit := seq_audit st |}.

(** POST /api/calls *)
Definition post_call (now : Z) (st : db) (user : Payload.t) (body : object)
  : response * db :=
  let row :=
    {| Call.id := seq_calls st + 1;
       Call.lead_id := bind_int (get body "lead_id");
       Call.user_id := bind_int (get body "user_id");
       Call.lead_name := bind_text (Some (or_else (get body "lead_name") JNull));
       Call.user_name := bind_text (Some (or_else (get body "user_name") JNull));
       Call.outcome := bind_text (Some (or_else (get body "outcome") JNull));
       Call.notes := bind_text (Some (or_else (get body "notes") (JStr EmptyString)));
       Call.duration := bind_int (Some (or_else (get body "duration") (JNum 0)));
       Call.quality := bind_int (Some (or_else (get body "quality") JNull));
       Call.created_at := now |} in
  (Json (Data_id (Call.id row)),
   audit now "call" (JNum (Call.id row)) "create" (JObj body) (performer user)
     (insert_call row st)).

(** *** The routes *)

Inductive request :=
| POST_auth_register (body : object)
| GET_leads
| GET_lead (id : Z)
| POST_leads (body : object)
| PUT_lead (id : Z) (body : object)
| DELETE_lead (id : Z)
| POST_leads_import (body : object)
| POST_leads_merge (body : object)
| POST_calls (body : object).

(** One request against the server: [auth] is the Authorization header's
    token, [now] the clock when the statement runs. *)
Definition handle (production : bool) (now : Z) (st : db) (auth : option token)
  (req : request) : response * db :=
  match req with
  | POST_auth_register body => register now st body
  | _ =>
      match authMiddleware production st auth with
      | inr denied => (denied, st)
      | inl user =>
          match req with
          | POST_auth_register body => register now st body
          | GET_leads => (get_leads st user, st)
          | GET_lead id => (get_lead st user id, st)
          | POST_leads body =>
              requireRole ["admin"; "manager"] user (post_lead now st user body) st
          | PUT_lead id body => put_lead now st user id body
          | DELETE_lead id =>
              requireRole ["admin"; "manager"] user (delete_lead now st user id) st
          | POST_leads_import body =>
              requireRole ["admin"; "manager"] user (import_leads now st user body) st
          | POST_leads_merge body =>
              requireRole ["admin"; "manager"] user (merge_leads now st user body) st
          | POST_calls body => post_call now st user body
          end
      end
  end.

End Backend.

(** ** frontend/src/pages/AdminDashboard.jsx *)

Module AdminDashboard.
Import JS.
Module Lead := Backend.Lead.

Definition MS_PER_DAY : Z := 86400000.

(** [new Date(d)] for a date-only text: UTC midnight of day [d]. *)
Definition Date_of_day (d : Z) : Z := d * MS_PER_DAY.

(** [now.toISOString().slice(0, 10)]: the UTC day of an instant. *)
Definition day_of (now : Z) : Z := now / MS_PER_DAY.

(** [arr.filter(p).length] *)
Definition count {A : Type} (p : A -> bool) (arr : list A) : Z :=
  Z.of_nat (List.length (filter p arr)).

(** *** generateAlerts *)

Definition todaysFollowups (now : Z) (leadsArr : list Lead.t) : Z :=
  let today := day_of now in
  count (fun l => match Lead.next_follow_up l with
                  | Some d => Z.eqb d today
                  | None => false
                  end) leadsArr.

Definition pending (leadsArr : list Lead.t) : Z :=
  count (fun l => includes ["pending"; "follow-up"]
                    (toLowerCase (text_or (Lead.status l) EmptyString))) leadsArr.

Definition missed (now : Z) (leadsArr : list Lead.t) : Z :=
  count (fun l => match Lead.next_follow_up l with
                  | Some d => Z.ltb (Date_of_day d) now
                  | None => false
                  end) leadsArr.

(** The alert list [generateAlerts] hands to [setAlerts]; [now] is the
    [new Date()] it starts with. *)
Definition generateAlerts (now : Z) (leadsArr : list Lead.t) : list string :=
  let n1 := todaysFollowups now leadsArr in
  let n2 := pending leadsArr in
  let n3 := missed now leadsArr in
  let a1 := if Z.eqb n1 0 then [] else ["📅 " ++ decimal n1 ++ " follow-ups for today"] in
  let a2 := if Z.eqb n2 0 then [] else ["⏳ " ++ decimal n2 ++ " pending items"] in
  let a3 := if Z.eqb n3 0 then [] else ["⚠️ " ++ decimal n3 ++ " missed follow-ups"] in
  List.app a1 (List.app a2 a3).

(** *** Scoring *)

(** The payload of the lead form: [Object.fromEntries] of its fields, to
    which [createLead] adds [score]. *)
Module LeadForm.
Record t := {
  name : option string;
  phone : option string;
  email : option string;
  type : option string;
  status : option string;
  source : option string;
  next_follow_up : option Z;
  remarks : option string;
  score : option Z
}.
End LeadForm.

(** [computeScore(lead)], where [jitter] is the value
    [Math.floor(Math.random() * 10)] takes in the call. *)
Definition computeScore (jitter : Z) (lead : LeadForm.t) : Z :=
  let score := 0 in
  let score := if text_truthy (LeadForm.email lead) then score + 10 else score in
  let score := if text_truthy (LeadForm.phone lead) then score + 20 else score in
  let score :=
    if String.eqb (toLowerCase (text_or (LeadForm.source lead) EmptyString)) "website"
    then score + 5 else score in
  let score :=
    if String.eqb (toLowerCase (text_or (LeadForm.type lead) EmptyString)) "insurance"
    then score + 8 else score in
  score + jitter.

(** The deterministic floor of the specification: the sum of the fixed
    bonuses that apply to a lead (the source and the type are compared
    without regard to case, as the code compares them). *)
Definition bonuses (lead : LeadForm.t) : list (bool * Z) :=
  [(text_truthy (LeadForm.email lead), 10);
   (text_truthy (LeadForm.phone lead), 20);
   (String.eqb (toLowerCase (text_or (LeadForm.source lead) EmptyString)) "website", 5);
   (String.eqb (toLowerCase (text_or (LeadForm.type lead) EmptyString)) "insurance", 8)].

Definition deterministic_floor (lead : LeadForm.t) : Z :=
  fold_right (fun (b : bool * Z) acc => (if fst b then snd b else 0) + acc) 0
    (bonuses lead).

Definition with_score (s : Z) (data : LeadForm.t) : LeadForm.t :=
  {| LeadForm.name := LeadForm.name data; LeadForm.phone := LeadForm.phone data;
     LeadForm.email := LeadForm.email data; LeadForm.type := LeadForm.type data;
     LeadForm.status := LeadForm.status data; LeadForm.source := LeadForm.source data;
     LeadForm.next_follow_up := LeadForm.next_follow_up data;
     LeadForm.remarks := LeadForm.remarks data; LeadForm.score := Some s |}.

(** [createLead(data)]: the body it posts to /api/leads. *)
Definition createLead (jitter : Z) (data : LeadForm.t) : LeadForm.t :=
  if negb (int_truthy (LeadForm.score data))
  then with_score (computeScore jitter data) data
  else data.

(** *** Filters *)

(** [setLeads(lRes.data?.data || [])] in [fetchAll]: the rows of the
    answer to GET /api/leads, none when the request failed. *)
Definition fetched_leads (lRes : Backend.response) : list Lead.t :=
  match lRes with
  | Backend.Json (Backend.Data_rows rows) => rows
  | _ => []
  end.

(** The text of a date filter, by what [new Date] reads from it: nothing
    for the empty text, Invalid Date, or an instant (UTC midnight when the
    text is a date alone, as a date input gives it). *)
Inductive date_text :=
| NoDate
| InvalidDate
| Instant (t : Z).

(** The filter state of the leads tab. *)
Record filters := {
  searchTerm : string;
  filterStatus : string;
  filterType : string;
  filterUser : string;
  dateFrom : date_text;
  dateTo : date_text
}.

(** [s.includes(q)] *)
Definition str_includes (s q : string) : bool :=
  match String.index 0 q s with
  | Some _ => true
  | None => false
  end.

Definition nonempty (s : string) : bool := negb (String.eqb s EmptyString).

(** [cond ? data.filter(p) : data] *)
Definition filter_if {A : Type} (cond : bool) (p : A -> bool) (data : list A) : list A :=
  if cond then filter p data else data.

Definition filteredLeads (f : filters) (leads : list Lead.t) : list Lead.t :=
  let data := leads in
  let q := toLowerCase (trim (searchTerm f)) in
  let data :=
    filter_if (nonempty q)
      (fun it => str_includes (toLowerCase (text_or (Lead.name it) EmptyString)) q
                 || str_includes (toLowerCase (text_or (Lead.phone it) EmptyString)) q
                 || str_includes (toLowerCase (text_or (Lead.email it) EmptyString)) q)
      data in
  let data :=
    filter_if (nonempty (filterStatus f))
      (fun l => String.eqb (toLowerCase (text_or (Lead.status l) EmptyString))
                  (toLowerCase (filterStatus f))) data in
  let data :=
    filter_if (nonempty (filterType f))
      (fun l => String.eqb (toLowerCase (text_or (Lead.type l) EmptyString))
                  (toLowerCase (filterType f))) data in
  let data :=
    filter_if (nonempty (filterUser f))
      (fun l => String.eqb
                  (if int_truthy (Lead.assigned_to l)
                   then match Lead.assigned_to l with
                        | Some n => decimal n
                        | None => EmptyString
                        end
                   else EmptyString)
                  (filterUser f)) data in
  let data :=
    match dateFrom f with
    | NoDate => data
    | InvalidDate => filter (fun l => false) data
    | Instant a =>
        filter (fun l => match Lead.created_at l with
                         | Some t => Z.leb a t
                         | None => false
                         end) data
    end in
  let data :=
    match dateTo f with
    | NoDate => data
    | InvalidDate => filter (fun l => false) data
    | Instant b =>
        filter (fun l => match Lead.created_at l with
                         | Some t => Z.leb t b
                         | None => false
                         end) data
    end in
  data.

(** *** findDuplicates *)

(** The composite key of a lead. *)
Definition key_of (l : Lead.t) : string :=
  trim ((text_or (Lead.phone l) EmptyString ++ "|") ++ text_or (Lead.email l) EmptyString).

(** [map[key] = map[key] || []; map[key].push(l)] on the property list of
    [map]: a new key goes last. *)
Fixpoint push_at (key : string) (l : Lead.t) (map : list (string * list Lead.t))
  : list (string * list Lead.t) :=
  match map with
  | [] => [(key, [l])]
  | (k, vals) :: map' =>
      if String.eqb k key then (k, (vals ++ [l])%list) :: map'
      else (k, vals) :: push_at key l map'
  end.

Definition group_by_key (leads : list Lead.t) : list (string * list Lead.t) :=
  fold_left (fun map l =>
               let key := key_of l in
               if String.eqb key EmptyString then map else push_at key l map)
    leads [].

(** [findDuplicates()]: the groups [{ key, values }] of two leads or more. *)
Definition findDuplicates (leads : list Lead.t) : list (string * list Lead.t) :=
  filter (fun kv => Nat.ltb 1 (List.length (snd kv))) (group_by_key leads).

End AdminDashboard.

(** ** The store as a whole *)

Module Store.
Import JS Backend.

(** The ids AUTOINCREMENT has handed out for leads: no two rows share one,
    and none lies above the last one handed out. *)
Definition leads_wf (st : db) : Prop :=
  NoDup (map Lead.id (leads st))
  /\ Forall (fun l => Lead.id l <= seq_leads st) (leads st).

Definition int_json (n : option Z) : json :=
  match n with
  | Some n => JNum n
  | None => JNull
  end.

(** A row of [leads] as [res.json] sends it: one property per column. *)
Definition row_json (l : Lead.t) : object :=
  [("id", JNum (Lead.id l));
   ("name", col_json (Lead.name l));
   ("phone", col_json (Lead.phone l));
   ("email", col_json (Lead.email l));
   ("type", col_json (Lead.type l));
   ("source", col_json (Lead.source l));
   ("score", int_json (Lead.score l));
   ("status", col_json (Lead.status l));
   ("assigned_to", int_json (Lead.assigned_to l));
   ("next_follow_up", int_json (Lead.next_follow_up l));
   ("remarks", col_json (Lead.remarks l));
   ("notes", col_json (Lead.notes l));
   ("created_at", int_json (Lead.created_at l))].

(** What a row shows in column [k] once the value [v] was bound to it. *)
Definition stored (k : string) (v : option json) : json :=
  if includes ["score"; "assigned_to"; "next_follow_up"] k
  then int_json (bind_int v)
  else col_json (bind_text v).

(** What a row shows in column [k] once PUT /api/leads/:id has written
    the value [v] of the body there. *)
Definition written (k : string) (v : json) : json :=
  if String.eqb k "notes" then JStr (JSON_stringify v)
  else if includes ["score"; "assigned_to"; "next_follow_up"] k
       then int_json (bind_int (Some v))
       else col_json (bind_text (Some v)).

(** What one request may do to the audit log: nothing, or one record. *)
Inductive logged (now : Z) (st : db) : response -> db -> Prop :=
| logged_nothing status error st' :
    audit_logs st' = audit_logs st -> logged now st (Error status error) st'
| logged_one r rec st' :
    audit_logs st' = (audit_logs st ++ [rec])%list ->
    Audit.id rec = seq_audit st + 1 -> Audit.created_at rec = now ->
    logged now st (Json r) st'.

(** The elements of an imported array up to the first null. *)
Fixpoint objects_before_null (incoming : list json) : list object :=
  match incoming with
  | [] => []
  | l :: rest =>
      match props_of l with
      | Some props => props :: objects_before_null rest
      | None => []
      end
  end.

End Store.

(** ** backend/src/index.js: logging in *)

Module Accounts.
Import JS Backend.

(** The first [n] bytes of [data] repeated without end; [rest] is what is
    left of the current round. *)
Fixpoint cycle (n : nat) (data rest : string) : string :=
  match n with
  | O => EmptyString
  | S n' =>
      match rest with
      | String c rest' => String c (cycle n' data rest')
      | EmptyString =>
          match data with
          | String c rest' => String c (cycle n' data rest')
          | EmptyString => EmptyString
          end
      end
  end.

(** What bcrypt reads of a password: the key schedule takes the 18 words
    (72 bytes) of the bytes of the text closed by a zero byte, starting
    over at the first byte when they run out.  A longer password is cut
    there. *)
Definition bcrypt_key (password : string) : string :=
  let data := password ++ String Ascii.zero EmptyString in
  cycle 72 data data.

(** [bcrypt.compareSync(password, hash)], on the symbolic hash: the
    password is hashed with the salt of [hash] and the two hashes are
    compared, which is to compare what bcrypt reads of the two passwords
    (two different keys are taken to give two different hashes). *)
Definition compareSync (password : string) (hash : pwhash) : bool :=
  match hash with
  | Bcrypt p => String.eqb (bcrypt_key password) (bcrypt_key p)
  end.

(** POST /api/auth/login.  The password is compared inside the callback of
    the query: when it is no string bcrypt throws there and no answer is
    sent ([None]). *)
Definition login (st : db) (body : object) : option (response * db) :=
  let email := get body "email" in
  let password := get body "password" in
  match find (fun u => text_eqb (User.email u) (bind_text email)) (users st) with
  | None => Some (Error 401 "Invalid credentials", st)
  | Some row =>
      match password with
      | Some (JStr pw) =>
          if negb (compareSync pw (User.password row))
          then Some (Error 401 "Invalid credentials", st)
          else
            let user :=
              {| Payload.id := User.id row;
                 Payload.name := Some (col_json (User.name row));
                 Payload.email := col_json (User.email row);
                 Payload.role := col_json (User.role row);
                 Payload.theme := Some (col_json (User.theme row)) |} in
            Some (Json (Session (jwt_sign user) user), st)
      | _ => None
      end
  end.

Definition with_users (rows : list User.t) (st : db) : db :=
  {| users := rows; leads := leads st; call_logs := call_logs st;
     audit_logs := audit_logs st; seq_users := seq_users st;
     seq_leads := seq_leads st; seq_calls := seq_calls st; seq_audit := seq_audit st |}.

(** POST /api/users, behind [requireRole]. *)
Definition post_user (now : Z) (st : db) (user : Payload.t) (body : object)
  : response * db :=
  let name := get body "name" in
  let email := get body "email" in
  let password := get body "password" in
  let role := get body "role" in
  let theme := get body "theme" in
  let daily_target := get body "daily_target" in
  if negb (truthy_opt email) || negb (truthy_opt password)
  then (Error 400 "Email & password required", st)
  else
    match password with
    | Some (JStr pw) =>
        let row :=
          {| User.id := seq_users st + 1;
             User.name := bind_text (Some (or_else name (JStr EmptyString)));
             User.email := bind_text email;
             User.password := Bcrypt pw;
             User.role := bind_text (Some (or_else role (JStr "telecaller")));
             User.theme := bind_text (Some (or_else theme (JStr "light")));
             User.daily_target := bind_int (Some (or_else daily_target JNull));
             User.suspended := 0;
             User.created_at := now |} in
        if existsb (fun u => text_eqb (User.email u) (User.email row)) (users st)
        then (Error 400 "SQLITE_CONSTRAINT: UNIQUE constraint failed: users.email", st)
        else
          (Json (Data_id (User.id row)),
           audit now "user" (JNum (User.id row)) "create"
             (JObj (match name with Some v => [("name", v)] | None => [] end
                    ++ match email with Some v => [("email", v)] | None => [] end))
             (performer user) (insert_user row st))
    | _ => (Error 500 "Illegal arguments", st)
    end.

(** PUT /api/users/:id, behind [requireRole]: the five columns are set
    from the body, whether the body names them or not. *)
Definition put_user (now : Z) (st : db) (user : Payload.t) (id : Z) (body : object)
  : response * db :=
  let email := bind_text (get body "email") in
  let hit := existsb (fun u => Z.eqb (User.id u) id) (users st) in
  if hit && existsb (fun u => negb (Z.eqb (User.id u) id) && text_eqb (User.email u) email)
              (users st)
  then (Error 400 "SQLITE_CONSTRAINT: UNIQUE constraint failed: users.email", st)
  else
    (Json Success,
     audit now "user" (JStr (decimal id)) "update" (JObj body) (performer user)
       (with_users
          (map (fun u =>
                  if Z.eqb (User.id u) id
                  then {| User.id := User.id u;
                          User.name := bind_text (get body "name");
                          User.email := email;
                          User.password := User.password u;
                          User.role := bind_text (get body "role");
                          User.theme := bind_text (get body "theme");
                          User.daily_target := bind_int (get body "daily_target");
                          User.suspended := User.suspended u;
                          User.created_at := User.created_at u |}
                  else u) (users st)) st)).

(** DELETE /api/users/:id, behind [requireRole]. *)
Definition delete_user (now : Z) (st : db) (user : Payload.t) (id : Z)
  : response * db :=
  (Json Success,
   audit now "user" (JStr (decimal id)) "delete" JNull (performer user)
     (with_users (filter (fun u => negb (Z.eqb (User.id u) id)) (users st)) st)).

Inductive request :=
| POST_auth_login (body : object)
| POST_users (body : object)
| PUT_user (id : Z) (body : object)
| DELETE_user (id : Z).

(** One request against the routes of accounts; [None] when no answer is
    sent. *)
Definition handle (production : bool) (now : Z) (st : db) (auth : option token)
  (req : request) : option (response * db) :=
  match req with
  | POST_auth_login body => login st body
  | _ =>
      match authMiddleware production st auth with
      | inr denied => Some (denied, st)
      | inl user =>
          match req with
          | POST_auth_login body => login st body
          | POST_users body =>
              Some (requireRole ["admin"; "manager"] user (post_user now st user body) st)
          | PUT_user id body =>
              Some (requireRole ["admin"; "manager"] user (put_user now st user id body) st)
          | DELETE_user id =>
              Some (requireRole ["admin"; "manager"] user (delete_user now st user id) st)
          end
      end
  end.

End Accounts.

(** ** backend/src/index.js: the eight hours of a token *)

Module Lifetime.
Import JS Backend.

(** [Math.floor(Date.now() / 1000)]: the clock jsonwebtoken reads, in
    seconds. *)
Definition clockTimestamp (now : Z) : Z := now / 1000.

(** [expiresIn: '8h'], in seconds. *)
Definition expiresIn : Z := 8 * 60 * 60.

(** A token with the time it was signed at: [jwt.sign] writes [iat], the
    clock of the signature, and [exp = iat + expiresIn] into the payload
    it signs. *)
Record issued := {
  bearer : token;
  iat : Z
}.

Definition exp (t : issued) : Z := iat t + expiresIn.

(** [jwt.sign(user, JWT_SECRET, { expiresIn: '8h' })] at the clock [now]. *)
Definition sign (now : Z) (payload : Payload.t) : issued :=
  {| bearer := jwt_sign payload; iat := clockTimestamp now |}.

(** [jwt.verify(token, JWT_SECRET)] at the clock [now]: the signature is
    checked, then the expiry, and a token is refused from the second [exp]
    on. *)
Definition verify (now : Z) (t : issued) : option Payload.t :=
  match jwt_verify (bearer t) with
  | Some payload =>
      if Z.leb (exp t) (clockTimestamp now) then None else Some payload
  | None => None
  end.

(** [authMiddleware] at the clock [now]. *)
Definition authMiddleware (production : bool) (now : Z) (st : db)
  (auth : option issued) : Payload.t + response :=
  match auth with
  | None => Backend.authMiddleware production st None
  | Some t =>
      match verify now t with
      | Some payload => inl payload
      | None => inr (Error 401 "Invalid token")
      end
  end.

(** One request against the routes of leads and calls, at the clock [now]:
    behind [authMiddleware] a token past its expiry is answered 401, and
    a token in its time runs the route. *)
Definition handle (production : bool) (now : Z) (st : db) (auth : option issued)
  (req : request) : response * db :=
  match req, authMiddleware production now st auth with
  | POST_auth_register _, _ => Backend.handle production now st None req
  | _, inr denied => (denied, st)
  | _, inl _ => Backend.handle production now st (option_map bearer auth) req
  end.

(** The same for the routes of accounts. *)
Definition handle_account (production : bool) (now : Z) (st : db)
  (auth : option issued) (req : Accounts.request) : option (response * db) :=
  match req, authMiddleware production now st auth with
  | Accounts.POST_auth_login _, _ => Accounts.handle production now st None req
  | _, inr denied => Some (denied, st)
  | _, inl _ => Accounts.handle production now st (option_map bearer auth) req
  end.

End Lifetime.

(** ** frontend/src/pages/AdminDashboard.jsx: pages, merge, charts *)

Module AdminPage.
Import JS AdminDashboard.

(** [arr.slice(start, end)]: a negative index counts from the end. *)
Definition slice {A : Type} (start end_ : Z) (arr : list A) : list A :=
  let len := Z.of_nat (List.length arr) in
  let k := if Z.ltb start 0 then Z.max (len + start) 0 else Z.min start len in
  let final := if Z.ltb end_ 0 then Z.max (len + end_) 0 else Z.min end_ len in
  firstn (Z.to_nat (final - k)) (skipn (Z.to_nat k) arr).

(** One page of [arr], for a dashboard showing [itemsPerPage] rows. *)
Definition page_of {A : Type} (itemsPerPage currentPage : Z) (arr : list A) : list A :=
  let start := (currentPage - 1) * itemsPerPage in
  slice start (start + itemsPerPage) arr.

(** [Math.max(1, Math.ceil(len / itemsPerPage))] *)
Definition pages_of {A : Type} (itemsPerPage : Z) (arr : list A) : Z :=
  let len := Z.of_nat (List.length arr) in
  Z.max 1 ((len + itemsPerPage - 1) / itemsPerPage).

Definition itemsPerPage : Z := 10.

(** [paginated(arr)] at the page [currentPage]. *)
Definition paginated {A : Type} (currentPage : Z) (arr : list A) : list A :=
  page_of itemsPerPage currentPage arr.

(** The number of page buttons under the leads table. *)
Definition page_buttons {A : Type} (arr : list A) : Z := pages_of itemsPerPage arr.

(** [mergeLeads(keepId, mergeIds)]: the request it posts, none when it
    alerts instead. *)
Definition mergeLeads (keepId : Z) (mergeIds : list Z) : option Backend.request :=
  if negb (int_truthy (Some keepId)) || Nat.eqb (List.length mergeIds) 0
  then None
  else Some (Backend.POST_leads_merge
               [("keepId", JNum keepId); ("mergeIds", JArr (map JNum mergeIds))]).

(** The button Keep this (merge others) of the lead [v] in a duplicate
    group. *)
Definition keep_this (values : list Lead.t) (v : Lead.t) : option Backend.request :=
  let keepId := Lead.id v in
  let mergeIds :=
    map Lead.id (filter (fun x => negb (Z.eqb (Lead.id x) keepId)) values) in
  mergeLeads keepId mergeIds.

(** The members of the key [k] among the leads. *)
Definition members (k : string) (leads : list Lead.t) : list Lead.t :=
  filter (fun l => String.eqb (key_of l) k) leads.

(** [map[k]] on the property list of the map of [findDuplicates]. *)
Fixpoint assoc (k : string) (map : list (string * list Lead.t)) : option (list Lead.t) :=
  match map with
  | [] => None
  | (k', vals) :: map' => if String.eqb k' k then Some vals else assoc k map'
  end.

(** A property of the form payload: left out when the form has no such
    field. *)
Definition text_prop (k : string) (v : option string) : object :=
  match v with
  | Some s => [(k, JStr s)]
  | None => []
  end.

Definition int_prop (k : string) (v : option Z) : object :=
  match v with
  | Some n => [(k, JNum n)]
  | None => []
  end.

(** The body [createLead] posts, as axios writes the form payload. *)
Definition form_body (data : LeadForm.t) : object :=
  (text_prop "name" (LeadForm.name data)
   ++ text_prop "phone" (LeadForm.phone data)
   ++ text_prop "email" (LeadForm.email data)
   ++ text_prop "type" (LeadForm.type data)
   ++ text_prop "status" (LeadForm.status data)
   ++ text_prop "source" (LeadForm.source data)
   ++ int_prop "next_follow_up" (LeadForm.next_follow_up data)
   ++ text_prop "remarks" (LeadForm.remarks data)
   ++ int_prop "score" (LeadForm.score data))%list.

End AdminPage.

(** ** frontend/src/pages/ManagerDashboard.jsx and TelecallerDashboard.jsx

    The two files share the code below word for word. *)

Module ManagerDashboard.
Import JS AdminDashboard.

Definition itemsPerPage : Z := 8.

Record filters := {
  searchTerm : string;
  statusFilter : string;
  scoreFilter : string
}.

(** [l.score || 0] *)
Definition score_or_0 (l : Lead.t) : Z :=
  match Lead.score l with
  | Some n => n
  | None => 0
  end.

Definition filteredLeads (f : filters) (leads : list Lead.t) : list Lead.t :=
  let arr := leads in
  let q := toLowerCase (trim (searchTerm f)) in
  let arr :=
    filter_if (nonempty q)
      (fun l => str_includes
                  (toLowerCase
                     (((text_or (Lead.name l) EmptyString ++ " ")
                       ++ text_or (Lead.email l) EmptyString ++ " ")
                      ++ text_or (Lead.phone l) EmptyString)) q) arr in
  let arr :=
    filter_if (nonempty (statusFilter f))
      (fun l => String.eqb (toLowerCase (text_or (Lead.status l) EmptyString))
                  (toLowerCase (statusFilter f))) arr in
  let arr :=
    if nonempty (scoreFilter f)
    then
      let arr := filter_if (String.eqb (scoreFilter f) "high")
                   (fun l => Z.leb 80 (score_or_0 l)) arr in
      let arr := filter_if (String.eqb (scoreFilter f) "medium")
                   (fun l => Z.leb 50 (score_or_0 l) && Z.ltb (score_or_0 l) 80) arr in
      let arr := filter_if (String.eqb (scoreFilter f) "low")
                   (fun l => Z.ltb (score_or_0 l) 50) arr in
      arr
    else arr in
  arr.

(** [pagedLeads] at the page [currentPage]. *)
Definition pagedLeads (currentPage : Z) (filtered : list Lead.t) : list Lead.t :=
  AdminPage.page_of itemsPerPage currentPage filtered.

Definition totalPages (dataArr : list Lead.t) : Z :=
  AdminPage.pages_of itemsPerPage dataArr.


End ManagerDashboard.

(** ** Sample data *)

Module Sample.
Import JS Backend.

Definition lead (id : Z) (assignee : option Z) (created : Z) : Lead.t :=
  {| Lead.id := id; Lead.name := Some "Asha"; Lead.phone := Some "555-1";
     Lead.email := Some "a@x.com"; Lead.type := Some "insurance";
     Lead.source := Some "website"; Lead.score := Some 10;
     Lead.status := Some "new"; Lead.assigned_to := assignee;
     Lead.next_follow_up := None; Lead.remarks := Some EmptyString;
     Lead.notes := Some "[]"; Lead.created_at := Some created |}.

Definition store : db :=
  {| users := []; leads := [lead 1 (Some 3) 1000; lead 2 (Some 2) 2000; lead 3 None 3000];
     call_logs := []; audit_logs := [];
     seq_users := 3; seq_leads := 3; seq_calls := 0; seq_audit := 0 |}.

Definition account (id : Z) (role : string) : Payload.t :=
  {| Payload.id := id; Payload.name := Some (JStr "user");
     Payload.email := JStr "user@crm.com"; Payload.role := JStr role;
     Payload.theme := Some (JStr "light") |}.

(** A lead with the given phone and email and nothing else of note. *)
Definition blank (id : Z) (phone email : option string) : Lead.t :=
  {| Lead.id := id; Lead.name := Some "Asha"; Lead.phone := phone;
     Lead.email := email; Lead.type := None; Lead.source := None;
     Lead.score := None; Lead.status := Some "new"; Lead.assigned_to := None;
     Lead.next_follow_up := None; Lead.remarks := None; Lead.notes := None;
     Lead.created_at := Some 1000 |}.

(** A lead whose follow-up is due on the given day. *)
Definition due (id : Z) (day : Z) : Lead.t :=
  {| Lead.id := id; Lead.name := Some "Asha"; Lead.phone := Some "555-1";
     Lead.email := None; Lead.type := None; Lead.source := None;
     Lead.score := None; Lead.status := Some "new"; Lead.assigned_to := None;
     Lead.next_follow_up := Some day; Lead.remarks := None; Lead.notes := None;
     Lead.created_at := Some 1000 |}.

(** Three leads, created on 2024-01-14 at 10:00, on 2024-01-15 at 23:00
    and on 2024-01-16 at noon (day 19737 is 2024-01-15). *)
Definition dated : db :=
  {| users := [];
     leads := [lead 1 None (19736 * 86400000 + 36000000);
               lead 2 None (19737 * 86400000 + 82800000);
               lead 3 None (19738 * 86400000 + 43200000)];
     call_logs := []; audit_logs := [];
     seq_users := 1; seq_leads := 3; seq_calls := 0; seq_audit := 0 |}.

Definition admin : option token := Some (jwt_sign (account 1 "admin")).
Definition telecaller : option token := Some (jwt_sign (account 2 "telecaller")).

End Sample.

(** ** Facts about the backend *)

Section BackendFacts.
Import JS Backend.

Lemma id_eq_JNum (i n : Z) : id_eq i (JNum n) = Z.eqb i n.
Proof. reflexivity. Qed.

Lemma existsb_id_eq (i : Z) (ids : list Z) :
  existsb (id_eq i) (map JNum ids) = true <-> In i ids.
Proof.
  induction ids as [|n ids IH]; simpl.
  - split; [discriminate | tauto].
  - rewrite orb_true_iff, IH, id_eq_JNum, Z.eqb_eq. intuition congruence.
Qed.

Lemma audit_leads now entity entityId action details by_ st :
  leads (audit now entity entityId action details by_ st) = leads st.
Proof. reflexivity. Qed.

Lemma audit_users now entity entityId action details by_ st :
  users (audit now entity entityId action details by_ st) = users st.
Proof. reflexivity. Qed.

Lemma audit_appends now entity entityId action details by_ st :
  exists rec,
    audit_logs (audit now entity entityId action details by_ st)
    = (audit_logs st ++ [rec])%list
    /\ Audit.entity rec = entity
    /\ Audit.entity_id rec = toString (or_else (Some entityId) (JStr EmptyString))
    /\ Audit.action rec = action
    /\ Audit.details rec = match details with JStr s => s | d => JSON_stringify d end.
Proof. eexists; repeat split. Qed.

(** What a successful merge request did, whatever the caller. *)
Lemma merge_leads_success now st user body st' :
  merge_leads now st user body = (Json Success, st') ->
  exists keepId mergeIds,
    get body "keepId" = Some keepId /\ get body "mergeIds" = Some (JArr mergeIds)
    /\ truthy keepId = true
    /\ st' = audit now "lead" keepId "merge"
               (JObj [("keep", keepId); ("removed", JArr mergeIds)]) (performer user)
               (with_leads
                  (filter (fun l => negb (existsb (id_eq (Lead.id l)) mergeIds)) (leads st))
                  st).
Proof.
  unfold merge_leads.
  destruct (get body "keepId") as [keepId|]; [|discriminate].
  destruct (get body "mergeIds") as [[| | | |mergeIds|]|]; try discriminate.
  destruct (truthy keepId) eqn:T; simpl; [|discriminate].
  intros H. inversion H. exists keepId, mergeIds. auto.
Qed.

Lemma authMiddleware_denies production st auth denied :
  authMiddleware production st auth = inr denied ->
  exists status error, denied = Error status error.
Proof.
  unfold authMiddleware.
  destruct auth as [t|].
  - destruct (jwt_verify t); [discriminate|].
    intros H. inversion H. eauto.
  - destruct production; [intros H; inversion H; eauto|].
    destruct (find _ (users st)); [discriminate|].
    intros H. inversion H. eauto.
Qed.

Lemma handle_merge_success production now st auth body st' :
  handle production now st auth (POST_leads_merge body) = (Json Success, st') ->
  exists user,
    authMiddleware production st auth = inl user
    /\ has_role ["admin"; "manager"] user = true
    /\ merge_leads now st user body = (Json Success, st').
Proof.
  unfold handle, requireRole.
  destruct (authMiddleware production st auth) as [user|denied] eqn:A.
  - destruct (has_role ["admin"; "manager"] user) eqn:R; [|discriminate].
    intros H. exists user. auto.
  - destruct (authMiddleware_denies _ _ _ _ A) as (status & error & ->).
    discriminate.
Qed.

(** C2. A merge request that succeeds, with [keepId] a number outside the
    non-empty list [mergeIds]: afterwards no lead whose id is in [mergeIds]
    is left, the leads table is the old one without those rows (so the row
    of [keepId], like every other surviving row, is kept field for field),
    and the audit log has grown by exactly one record, of action merge, on
    the kept id, whose details are the JSON text of the kept and removed
    ids. *)
Theorem merge_deletes_others_keeps_kept production now st auth body k ids st' :
  get body "keepId" = Some (JNum k) ->
  get body "mergeIds" = Some (JArr (map JNum ids)) ->
  ~ In k ids ->
  ids <> [] ->
  handle production now st auth (POST_leads_merge body) = (Json Success, st') ->
  (forall l, In l (leads st') -> ~ In (Lead.id l) ids)
  /\ (forall l, Lead.id l = k -> (In l (leads st') <-> In l (leads st)))
  /\ leads st' = filter (fun l => negb (existsb (Z.eqb (Lead.id l)) ids)) (leads st)
  /\ exists rec,
       audit_logs st' = (audit_logs st ++ [rec])%list
       /\ Audit.entity rec = "lead"
       /\ Audit.entity_id rec = decimal k
       /\ Audit.action rec = "merge"
       /\ Audit.details rec
          = JSON_stringify (JObj [("keep", JNum k); ("removed", JArr (map JNum ids))]).
Proof.
  intros Hk Hids Hnotin Hne H.
  destruct (handle_merge_success _ _ _ _ _ _ H) as (user & _ & _ & Hm).
  destruct (merge_leads_success _ _ _ _ _ Hm) as (keepId & mergeIds & Hk' & Hids' & T & ->).
  rewrite Hk in Hk'. rewrite Hids in Hids'.
  inversion Hk'; inversion Hids'; subst keepId mergeIds.
  rewrite audit_leads. simpl leads.
  assert (E : forall l, existsb (id_eq (Lead.id l)) (map JNum ids)
                        = existsb (Z.eqb (Lead.id l)) ids).
  { intros l. induction ids as [|n ids' IH']; simpl; [reflexivity|].
    rewrite id_eq_JNum. f_equal.
    clear - ids'. induction ids' as [|m ids' IH]; simpl; [reflexivity|].
    now rewrite id_eq_JNum, IH. }
  split; [|split; [|split]].
  - intros l Hl. apply filter_In in Hl. destruct Hl as [_ Hl].
    apply negb_true_iff in Hl. intros Hin.
    apply existsb_id_eq in Hin. congruence.
  - intros l Hl. split.
    + intros Hin. apply filter_In in Hin. tauto.
    + intros Hin. apply filter_In. split; [assumption|].
      apply negb_true_iff. apply not_true_iff_false.
      rewrite existsb_id_eq. congruence.
  - apply filter_ext. intros l. now rewrite E.
  - destruct (audit_appends now "lead" (JNum k) "merge"
                (JObj [("keep", JNum k); ("removed", JArr (map JNum ids))])
                (performer user)
                (with_leads
                   (filter (fun l => negb (existsb (id_eq (Lead.id l)) (map JNum ids)))
                      (leads st)) st))
      as (rec & Hlog & He & Hid & Ha & Hd).
    exists rec. repeat split; try assumption.
    rewrite Hid. simpl in T. simpl. destruct (Z.eqb k 0); [discriminate|reflexivity].
Qed.

(** A merge as in C2, run on the sample store by an admin. *)
Lemma merge_deletes_others_keeps_kept_witness :
  exists st',
    handle true 5000 Sample.store Sample.admin
      (POST_leads_merge [("keepId", JNum 1); ("mergeIds", JArr [JNum 2])])
    = (Json Success, st')
    /\ (forall l, In l (leads st') -> ~ In (Lead.id l) [2])
    /\ map Lead.id (leads st') = [1; 3].
Proof.
  eexists. split; [reflexivity|]. split; [|reflexivity].
  apply (merge_deletes_others_keeps_kept true 5000 Sample.store Sample.admin
           [("keepId", JNum 1); ("mergeIds", JArr [JNum 2])] 1 [2]).
  - reflexivity.
  - reflexivity.
  - simpl. intros [H|[]]. discriminate H.
  - discriminate.
  - reflexivity.
Defined.

(** C1. The merge route runs on the two inputs the specification wants
    refused.  With [keepId] among [mergeIds] the answer is success and the
    lead to keep is deleted with the others; with [mergeIds] empty the
    answer is success too, no lead goes, and a merge record is logged. *)
Theorem merge_accepts_overlapping_and_empty_ids :
  (exists st',
      handle true 5000 Sample.store Sample.admin
        (POST_leads_merge [("keepId", JNum 1); ("mergeIds", JArr [JNum 1; JNum 2])])
      = (Json Success, st')
      /\ map Lead.id (leads Sample.store) = [1; 2; 3]
      /\ map Lead.id (leads st') = [3])
  /\ (exists st',
         handle true 5000 Sample.store Sample.admin
           (POST_leads_merge [("keepId", JNum 1); ("mergeIds", JArr [])])
         = (Json Success, st')
         /\ leads st' = leads Sample.store
         /\ map Audit.action (audit_logs st') = ["merge"]).
Proof.
  split; eexists; (split; [reflexivity|]); split; reflexivity.
Qed.

(** The same in general: whenever an admin or a manager sends a [keepId]
    that is among the [mergeIds], the request succeeds and no lead with the
    id to keep is left. *)
Lemma merge_overlap_deletes_kept production now st auth user body k ids :
  authMiddleware production st auth = inl user ->
  has_role ["admin"; "manager"] user = true ->
  get body "keepId" = Some (JNum k) ->
  k <> 0 ->
  get body "mergeIds" = Some (JArr (map JNum ids)) ->
  In k ids ->
  let out := handle production now st auth (POST_leads_merge body) in
  fst out = Json Success
  /\ forall l, In l (leads (snd out)) -> Lead.id l <> k.
Proof.
  intros A R Hk Hk0 Hids Hin. unfold handle, requireRole, merge_leads.
  rewrite A, R, Hk, Hids. simpl truthy.
  destruct (Z.eqb k 0) eqn:E; [apply Z.eqb_eq in E; contradiction|].
  simpl. split; [reflexivity|].
  intros l Hl. apply filter_In in Hl. destruct Hl as [_ Hl].
  apply negb_true_iff in Hl. intros Heq. rewrite Heq in Hl.
  apply existsb_id_eq in Hin. congruence.
Qed.

(** *** Reads *)

Lemma insert_desc_perm x rows : Permutation (insert_desc x rows) (x :: rows).
Proof.
  induction rows as [|y rows IH]; simpl.
  - apply Permutation_refl.
  - destruct (instant_leb (Lead.created_at y) (Lead.created_at x)).
    + apply Permutation_refl.
    + eapply perm_trans; [apply perm_skip, IH | apply perm_swap].
Qed.

Lemma order_by_created_at_desc_perm rows :
  Permutation (order_by_created_at_desc rows) rows.
Proof.
  induction rows as [|x rows IH]; simpl.
  - apply perm_nil.
  - eapply perm_trans; [apply insert_desc_perm | apply perm_skip, IH].
Qed.

(** The list route shows a telecaller the leads assigned to that account
    and no other. *)
Lemma get_leads_scoped st user rows :
  is_telecaller user = true ->
  get_leads st user = Json (Data_rows rows) ->
  forall l, In l rows <->
            In l (leads st) /\ Lead.assigned_to l = Some (Payload.id user).
Proof.
  unfold get_leads, select_leads. intros -> H. inversion H; subst rows; clear H.
  intros l. split.
  - intros Hin.
    apply (Permutation_in _ (order_by_created_at_desc_perm _)) in Hin.
    apply filter_In in Hin. destruct Hin as [Hin Hc]. split; [assumption|].
    unfold col_eq in Hc. destruct (Lead.assigned_to l) as [m|]; [|discriminate].
    apply Z.eqb_eq in Hc. now subst.
  - intros [Hin Ha].
    apply (Permutation_in _ (Permutation_sym (order_by_created_at_desc_perm _))).
    apply filter_In. split; [assumption|].
    rewrite Ha. simpl. apply Z.eqb_refl.
Qed.

(** The read-by-id route does not look at the caller: whoever is
    authenticated gets the row of an id that exists. *)
Lemma get_lead_unscoped production now st auth user id row :
  authMiddleware production st auth = inl user ->
  find (fun l => Z.eqb (Lead.id l) id) (leads st) = Some row ->
  handle production now st auth (GET_lead id) = (Json (Data_row row), st).
Proof.
  intros A F. unfold handle, get_lead. now rewrite A, F.
Qed.

(** C3. A telecaller (account 2) reads by id a lead assigned to account 3:
    the read-by-id route answers with the row, while the list route, asked
    by the same caller, leaves that lead out. *)
Theorem telecaller_reads_other_accounts_lead_by_id :
  is_telecaller (Sample.account 2 "telecaller") = true
  /\ Lead.assigned_to (Sample.lead 1 (Some 3) 1000) = Some 3
  /\ handle true 5000 Sample.store Sample.telecaller (GET_lead 1)
     = (Json (Data_row (Sample.lead 1 (Some 3) 1000)), Sample.store)
  /\ handle true 5000 Sample.store Sample.telecaller GET_leads
     = (Json (Data_rows [Sample.lead 2 (Some 2) 2000]), Sample.store).
Proof. repeat split. Qed.

(** *** Writes *)

(** Case analysis on the column a key names. *)
Ltac by_column k :=
  unfold set_col;
  repeat match goal with
         | |- context [String.eqb k ?c] => destruct (String.eqb k c)
         end.

Lemma set_col_id k v l : Lead.id (set_col k v l) = Lead.id l.
Proof. destruct l. by_column k; reflexivity. Qed.

Lemma set_col_created_at k v l : Lead.created_at (set_col k v l) = Lead.created_at l.
Proof. destruct l. by_column k; reflexivity. Qed.

Lemma set_cols_keep assignments l :
  let l' := fold_left (fun l kv => set_col (fst kv) (snd kv) l) assignments l in
  Lead.id l' = Lead.id l /\ Lead.created_at l' = Lead.created_at l.
Proof.
  revert l. induction assignments as [|kv rest IH]; intros l; simpl.
  - split; reflexivity.
  - destruct (IH (set_col (fst kv) (snd kv) l)) as [Hi Hc].
    rewrite Hi, Hc, set_col_id, set_col_created_at. split; reflexivity.
Qed.

(** An UPDATE rewrites rows in place: same ids, same creation instants, and
    the rows of other ids as they were. *)
Lemma update_leads_in_place assignments id rows :
  Forall2 (fun l l' => Lead.id l' = Lead.id l
                       /\ Lead.created_at l' = Lead.created_at l
                       /\ (Lead.id l <> id -> l' = l))
    rows (update_leads assignments id rows).
Proof.
  induction rows as [|l rows IH]; simpl; constructor; [|exact IH].
  destruct (Z.eqb (Lead.id l) id) eqn:E.
  - destruct (set_cols_keep assignments l) as [Hi Hc].
    repeat split; try assumption.
    apply Z.eqb_eq in E. congruence.
  - repeat split.
Qed.

Lemma Forall2_ids (P : Lead.t -> Lead.t -> Prop) rows rows' :
  (forall l l', P l l' -> Lead.id l' = Lead.id l) ->
  Forall2 P rows rows' -> map Lead.id rows' = map Lead.id rows.
Proof.
  intros HP H. induction H as [|l l' rows rows' H1 _ IH]; simpl.
  - reflexivity.
  - now rewrite (HP _ _ H1), IH.
Qed.






(** *** The allow-list of PUT /api/leads/:id *)

Lemma fields_of_known body :
  filter (fun k => includes allowed k) (Object_keys (known_fields body))
  = filter (fun k => includes allowed k) (Object_keys body).
Proof.
  unfold Object_keys, known_fields.
  induction body as [|[k v] body IH]; [reflexivity|].
  cbn [filter map fst].
  destruct (includes allowed k) eqn:E; cbn [filter map fst]; rewrite ?E, IH; reflexivity.
Qed.

Lemma get_known body k :
  includes allowed k = true -> get (known_fields body) k = get body k.
Proof.
  intros Hk. unfold known_fields.
  induction body as [|[k' v] body IH]; [reflexivity|].
  cbn [filter get fst].
  destruct (includes allowed k') eqn:E; cbn [get].
  - now rewrite IH.
  - destruct (String.eqb k' k) eqn:K; [|exact IH].
    apply String.eqb_eq in K. congruence.
Qed.

Lemma map_on_filter {A B : Type} (p : A -> bool) (f g : A -> B) xs :
  (forall x, p x = true -> f x = g x) ->
  map f (filter p xs) = map g (filter p xs).
Proof.
  intros H. apply map_ext_in. intros x Hx. apply filter_In in Hx. now apply H.
Qed.

Lemma no_fields_iff body :
  Nat.eqb (List.length (filter (fun k => includes allowed k) (Object_keys body))) 0
  = negb (existsb (includes allowed) (Object_keys body)).
Proof.
  induction (Object_keys body) as [|k ks IH]; [reflexivity|].
  cbn [filter existsb].
  destruct (includes allowed k); cbn [List.length Nat.eqb orb negb]; [reflexivity|exact IH].
Qed.

(** C7, as the code has it.  An update whose body names at least one
    allow-listed column succeeds, and the leads table it leaves is the one
    the same request leaves once the properties outside the allow-list are
    taken out of the body: those are dropped, the others applied.  Only a
    body with no allow-listed column at all is refused, with status 400 and
    the database untouched. *)
Theorem put_lead_drops_unknown_fields now st user id body :
  if existsb (includes allowed) (Object_keys body)
  then fst (put_lead now st user id body) = Json Success
       /\ leads (snd (put_lead now st user id body))
          = leads (snd (put_lead now st user id (known_fields body)))
  else put_lead now st user id body = (Error 400 "No updatable fields", st).
Proof.
  unfold put_lead.
  rewrite fields_of_known, !no_fields_iff.
  destruct (existsb (includes allowed) (Object_keys body)); simpl; [|reflexivity].
  split; [reflexivity|].
  do 2 f_equal.
  apply map_on_filter. intros k Hk. now rewrite (get_known _ _ Hk).
Qed.

(** C7 as stated fails: a body with an allow-listed column and an unknown
    one is accepted, and the known column is written. *)
Lemma put_lead_accepts_unknown_field :
  ~ (forall now st user id body,
        (exists k, In k (Object_keys body) /\ includes allowed k = false) ->
        exists error, put_lead now st user id body = (Error 400 error, st)).
Proof.
  intros H.
  destruct (H 5000 Sample.store (Sample.account 1 "admin") 1
              [("status", JStr "contacted"); ("foo", JNum 1)]) as (error & E).
  - exists "foo". split; [right; left; reflexivity | reflexivity].
  - discriminate E.
Qed.

(** The same request, looked at closely: the status is written, [foo] is
    dropped without a word. *)
Example put_lead_unknown_field_applied :
  let out := put_lead 5000 Sample.store (Sample.account 1 "admin") 1
               [("status", JStr "contacted"); ("foo", JNum 1)] in
  fst out = Json Success
  /\ map Lead.status (leads (snd out)) = [Some "contacted"; Some "new"; Some "new"].
Proof. split; reflexivity. Qed.

(** *** Registration *)

(** C10, as the code has it.  A register request with an email and a
    password, the email not taken yet, creates the account whatever the
    Authorization header and the environment: no credential is asked for.
    The role of the account is [role || 'telecaller']: the role of the body
    when that is truthy (any non-empty string, admin included), and
    telecaller when the property is absent or falsy (the empty string,
    null); the answer carries a token that verifies to a payload with that
    role. *)
Theorem register_takes_role_from_body production now st auth body email pw :
  get body "email" = Some email ->
  truthy email = true ->
  get body "password" = Some (JStr pw) ->
  pw <> EmptyString ->
  existsb (fun u => text_eqb (User.email u) (bind_text (Some email))) (users st) = false ->
  let role := or_else (get body "role") (JStr "telecaller") in
  exists user row st',
    handle production now st auth (POST_auth_register body)
    = (Json (Session (jwt_sign user) user), st')
    /\ jwt_verify (jwt_sign user) = Some user
    /\ Payload.role user = role
    /\ users st' = (users st ++ [row])%list
    /\ User.id row = Payload.id user
    /\ User.role row = bind_text (Some role)
    /\ (forall r, get body "role" = Some (JStr r) -> r <> EmptyString ->
                  Payload.role user = JStr r /\ User.role row = Some r)
    /\ (truthy_opt (get body "role") = false ->
        Payload.role user = JStr "telecaller" /\ User.role row = Some "telecaller").
Proof.
  intros He Ht Hp Hpw Hfree role.
  unfold handle, register. rewrite He, Hp, Ht.
  assert (Tp : truthy (JStr pw) = true).
  { simpl. destruct (String.eqb pw EmptyString) eqn:E; [|reflexivity].
    apply String.eqb_eq in E. contradiction. }
  rewrite Tp. simpl negb. simpl orb. cbv iota.
  cbn [User.email]. rewrite Hfree.
  eexists _, _, _. split; [reflexivity|].
  cbn [Payload.role User.role User.id Payload.id].
  rewrite audit_users. cbn [users insert_user].
  assert (R1 : forall r, get body "role" = Some (JStr r) -> r <> EmptyString ->
                         or_else (get body "role") (JStr "telecaller") = JStr r).
  { intros r -> Hr. simpl.
    destruct (String.eqb r EmptyString) eqn:E; [|reflexivity].
    apply String.eqb_eq in E. contradiction. }
  assert (R2 : truthy_opt (get body "role") = false ->
               or_else (get body "role") (JStr "telecaller") = JStr "telecaller").
  { unfold or_else, truthy_opt. destruct (get body "role") as [v|]; [|reflexivity].
    now intros ->. }
  repeat split.
  - now apply R1.
  - cbn [User.role]. now rewrite (R1 r H H0).
  - now apply R2.
  - cbn [User.role]. now rewrite (R2 H).
Qed.

(** Nobody is logged in, the server runs in production, and the body asks
    for the admin role: the account is created as admin, and the token of
    the answer opens a route reserved to admins and managers. *)
Lemma register_takes_role_from_body_witness :
  exists t user st',
    handle true 5000 Sample.store None
      (POST_auth_register
         [("email", JStr "eve@x.com"); ("password", JStr "pw"); ("role", JStr "admin")])
    = (Json (Session t user), st')
    /\ jwt_verify t = Some user
    /\ Payload.role user = JStr "admin"
    /\ map User.role (users st') = [Some "admin"]
    /\ fst (handle true 6000 st' (Some t) (DELETE_lead 1)) = Json Success.
Proof.
  destruct (register_takes_role_from_body true 5000 Sample.store None
              [("email", JStr "eve@x.com"); ("password", JStr "pw"); ("role", JStr "admin")]
              (JStr "eve@x.com") "pw" eq_refl eq_refl eq_refl
              ltac:(discriminate) eq_refl)
    as (user & row & st' & Hh & Hv & Hr & Hu & _ & Hrow & _).
  exists (jwt_sign user), user, st'.
  split; [exact Hh|]. split; [exact Hv|]. split; [exact Hr|].
  split.
  - rewrite Hu. simpl. now rewrite Hrow.
  - unfold handle. simpl authMiddleware. unfold requireRole, has_role.
    now rewrite Hr.
Defined.

(** C10 as stated fails on the default: a body whose role is the empty
    string does not get the role it supplies, it gets telecaller. *)
Lemma register_defaults_empty_role :
  ~ (forall now st body r t user st',
        get body "role" = Some (JStr r) ->
        register now st body = (Json (Session t user), st') ->
        Payload.role user = JStr r
        /\ exists row, In row (users st')
                       /\ User.id row = Payload.id user /\ User.role row = Some r).
Proof.
  intros H.
  destruct (H 5000 Sample.store
              [("email", JStr "eve@x.com"); ("password", JStr "pw"); ("role", JStr EmptyString)]
              EmptyString _ _ _ eq_refl eq_refl) as [Hr _].
  discriminate Hr.
Qed.

End BackendFacts.

(** ** Facts about the dashboard helpers *)

Section DashboardFacts.
Import JS AdminDashboard.

(** *** Scoring *)

Lemma computeScore_floor jitter lead :
  computeScore jitter lead = deterministic_floor lead + jitter.
Proof.
  unfold computeScore, deterministic_floor, bonuses. simpl.
  destruct (text_truthy (LeadForm.email lead)), (text_truthy (LeadForm.phone lead)),
    (String.eqb (toLowerCase (text_or (LeadForm.source lead) EmptyString)) "website"),
    (String.eqb (toLowerCase (text_or (LeadForm.type lead) EmptyString)) "insurance");
    lia.
Qed.

(** C6. A lead created without a score of its own gets the score
    [computeScore] gives it: the deterministic floor, that is the sum of the
    fixed bonuses that apply (email 10, phone 20, source website 5, type
    insurance 8), plus the jitter; whatever value in 0..9 the jitter takes,
    the score is at least the floor and below the floor plus ten. *)
Theorem createLead_score_between_floor_and_floor_plus_ten jitter data :
  int_truthy (LeadForm.score data) = false ->
  0 <= jitter < 10 ->
  exists s,
    LeadForm.score (createLead jitter data) = Some s
    /\ s = deterministic_floor data + jitter
    /\ deterministic_floor data <= s < deterministic_floor data + 10.
Proof.
  intros Hs Hj. unfold createLead. rewrite Hs. simpl.
  exists (computeScore jitter data). rewrite computeScore_floor.
  repeat split; lia.
Qed.

(** A form with an email, a phone, the source Website and no score, and
    the jitter at its top value: the floor is 35, the score 44. *)
Lemma createLead_score_between_floor_and_floor_plus_ten_witness :
  exists s,
    LeadForm.score
      (createLead 9
         {| LeadForm.name := Some "Asha"; LeadForm.phone := Some "555-1";
            LeadForm.email := Some "a@x.com"; LeadForm.type := Some "hiring";
            LeadForm.status := Some "new"; LeadForm.source := Some "Website";
            LeadForm.next_follow_up := None; LeadForm.remarks := Some EmptyString;
            LeadForm.score := None |}) = Some s
    /\ s = 35 + 9
    /\ 35 <= s < 35 + 10.
Proof.
  apply (createLead_score_between_floor_and_floor_plus_ten 9
           {| LeadForm.name := Some "Asha"; LeadForm.phone := Some "555-1";
              LeadForm.email := Some "a@x.com"; LeadForm.type := Some "hiring";
              LeadForm.status := Some "new"; LeadForm.source := Some "Website";
              LeadForm.next_follow_up := None; LeadForm.remarks := Some EmptyString;
              LeadForm.score := None |}).
  - reflexivity.
  - lia.
Defined.

(** *** Duplicate detection *)

Lemma trimEnd_empty s : trimEnd s = EmptyString -> all_space s = true.
Proof.
  induction s as [|c s IH]; simpl; [reflexivity|].
  destruct (trimEnd s); [|discriminate].
  destruct (is_space c); [|discriminate].
  intros _. now rewrite IH.
Qed.

Lemma trimStart_all_space s : all_space (trimStart s) = true -> all_space s = true.
Proof.
  induction s as [|c s IH]; simpl; [reflexivity|].
  destruct (is_space c) eqn:E; simpl.
  - exact IH.
  - now rewrite E.
Qed.

Lemma trim_empty s : trim s = EmptyString -> all_space s = true.
Proof. intros H. now apply trimStart_all_space, trimEnd_empty. Qed.

Lemma all_space_around_bar p e : all_space ((p ++ "|") ++ e) = false.
Proof.
  induction p as [|c p IH]; simpl.
  - reflexivity.
  - rewrite IH. apply andb_false_r.
Qed.

(** The key of a lead always holds the separator, so it is never empty:
    the test [if (!key) return] of [findDuplicates] never fires. *)
Lemma key_of_nonempty l : String.eqb (key_of l) EmptyString = false.
Proof.
  apply String.eqb_neq. intros H. apply trim_empty in H.
  unfold key_of in H. now rewrite all_space_around_bar in H.
Qed.

(** Any two leads with neither phone nor email share the key made of the
    separator alone and form a duplicate group. *)
Lemma blank_leads_are_grouped l1 l2 :
  text_truthy (Lead.phone l1) = false -> text_truthy (Lead.email l1) = false ->
  text_truthy (Lead.phone l2) = false -> text_truthy (Lead.email l2) = false ->
  findDuplicates [l1; l2] = [("|", [l1; l2])].
Proof.
  intros P1 E1 P2 E2.
  assert (K : forall l, text_truthy (Lead.phone l) = false ->
                        text_truthy (Lead.email l) = false -> key_of l = "|").
  { intros l P E. unfold key_of.
    destruct (Lead.phone l) as [[|c p]|]; try discriminate;
      destruct (Lead.email l) as [[|c' e]|]; try discriminate; reflexivity. }
  unfold findDuplicates, group_by_key. simpl.
  rewrite (K l1 P1 E1), (K l2 P2 E2). reflexivity.
Qed.

(** C5. Two leads with neither phone nor email (NULL in one, the empty
    text in the other) come out of [findDuplicates] as one duplicate group,
    under the key made of the separator alone. *)
Theorem leads_without_phone_and_email_are_grouped :
  (key_of (Sample.blank 1 None None) = "|"
   /\ key_of (Sample.blank 2 (Some EmptyString) (Some EmptyString)) = "|")
  /\ findDuplicates
       [Sample.blank 1 None None; Sample.blank 2 (Some EmptyString) (Some EmptyString)]
     = [("|",
         [Sample.blank 1 None None; Sample.blank 2 (Some EmptyString) (Some EmptyString)])].
Proof.
  split.
  - split; reflexivity.
  - apply blank_leads_are_grouped; reflexivity.
Qed.

(** The trim is applied to the joined key, not to each field: white space
    after the phone or before the email stays in the key. *)
Example inner_white_space_splits_a_group :
  findDuplicates [Sample.blank 1 (Some "555-1 ") (Some "a@x.com");
                  Sample.blank 2 (Some "555-1") (Some "a@x.com")] = []
  /\ findDuplicates [Sample.blank 1 (Some " 555-1") (Some "a@x.com ");
                     Sample.blank 2 (Some "555-1") (Some "a@x.com")]
     = [("555-1|a@x.com",
         [Sample.blank 1 (Some " 555-1") (Some "a@x.com ");
          Sample.blank 2 (Some "555-1") (Some "a@x.com")])].
Proof. split; reflexivity. Qed.

(** *** Alerts *)

(** C9. Day 19737 is 2024-01-15.  At noon of that day a lead whose
    follow-up is that very day is counted as due today and as missed as
    well; at midnight sharp of the same day the same snapshot has no missed
    follow-up, so the alerts depend on the instant and not on the date
    alone. *)
Theorem follow_up_due_today_is_counted_missed :
  let today := 19737 in
  let midnight := Date_of_day today in
  let noon := midnight + 43200000 in
  day_of noon = today
  /\ day_of midnight = today
  /\ todaysFollowups noon [Sample.due 1 today] = 1
  /\ missed noon [Sample.due 1 today] = 1
  /\ generateAlerts noon [Sample.due 1 today]
     = ["📅 1 follow-ups for today"; "⚠️ 1 missed follow-ups"]
  /\ missed midnight [Sample.due 1 today] = 0
  /\ generateAlerts midnight [Sample.due 1 today] = ["📅 1 follow-ups for today"].
Proof. repeat split. Qed.

(** The defect in general: once the day has begun, every follow-up of the
    day counts as missed. *)
Lemma due_today_counts_as_missed now l :
  Lead.next_follow_up l = Some (day_of now) ->
  now mod MS_PER_DAY <> 0 ->
  todaysFollowups now [l] = 1 /\ missed now [l] = 1.
Proof.
  intros Hl Hm. unfold todaysFollowups, missed, count. simpl.
  rewrite Hl, Z.eqb_refl.
  assert (Z.ltb (Date_of_day (day_of now)) now = true) as ->.
  { apply Z.ltb_lt. unfold Date_of_day, day_of, MS_PER_DAY in *.
    pose proof (Z.div_mod now 86400000 ltac:(lia)).
    pose proof (Z.mod_pos_bound now 86400000 ltac:(lia)). lia. }
  split; reflexivity.
Qed.

End DashboardFacts.

(** ** The date range of the leads tab *)

Section DateRange.
Import JS Backend AdminDashboard.

Lemma instant_leb_total a b : instant_leb a b = false -> instant_leb b a = true.
Proof.
  destruct a as [x|], b as [y|]; simpl; try reflexivity; try discriminate.
  intros H. apply Z.leb_gt in H. apply Z.leb_le. lia.
Qed.

Lemma instant_leb_trans a b c :
  instant_leb a b = true -> instant_leb b c = true -> instant_leb a c = true.
Proof.
  destruct a as [x|], b as [y|], c as [z|]; simpl; try reflexivity; try discriminate.
  rewrite !Z.leb_le. lia.
Qed.

Lemma insert_desc_sorted x rows :
  StronglySorted newer_first rows -> StronglySorted newer_first (insert_desc x rows).
Proof.
  induction 1 as [|y rows Hs IH Hy]; simpl.
  - constructor; constructor.
  - destruct (instant_leb (Lead.created_at y) (Lead.created_at x)) eqn:E.
    + constructor; [constructor; assumption|].
      constructor; [exact E|].
      eapply Forall_impl; [|exact Hy].
      intros z Hz. unfold newer_first in *. eapply instant_leb_trans; eassumption.
    + constructor; [exact IH|].
      apply Forall_forall. intros z Hz.
      apply (Permutation_in _ (insert_desc_perm x rows)) in Hz.
      destruct Hz as [<-|Hz].
      * now apply instant_leb_total.
      * rewrite Forall_forall in Hy. now apply Hy.
Qed.

Lemma order_by_created_at_desc_sorted rows :
  StronglySorted newer_first (order_by_created_at_desc rows).
Proof.
  induction rows as [|x rows IH]; simpl.
  - constructor.
  - now apply insert_desc_sorted.
Qed.

Lemma filter_sorted {A : Type} (R : A -> A -> Prop) (p : A -> bool) xs :
  StronglySorted R xs -> StronglySorted R (filter p xs).
Proof.
  induction 1 as [|x xs Hs IH Hx]; simpl; [constructor|].
  destruct (p x); [|exact IH].
  constructor; [exact IH|].
  apply Forall_forall. intros y Hy. apply filter_In in Hy.
  rewrite Forall_forall in Hx. now apply Hx.
Qed.

Lemma filter_perm {A : Type} (p : A -> bool) xs ys :
  Permutation xs ys -> Permutation (filter p xs) (filter p ys).
Proof.
  induction 1 as [|x xs ys _ IH|x y xs|xs ys zs _ IH1 _ IH2]; simpl.
  - constructor.
  - destruct (p x); [now constructor | exact IH].
  - destruct (p x), (p y); try apply Permutation_refl. apply perm_swap.
  - eapply perm_trans; eassumption.
Qed.

Lemma filter_filter {A : Type} (p q : A -> bool) xs :
  filter q (filter p xs) = filter (fun x => p x && q x) xs.
Proof.
  induction xs as [|x xs IH]; simpl; [reflexivity|].
  destruct (p x); simpl; [destruct (q x)|]; now rewrite IH.
Qed.

(** With a bound in [dateTo] and every other filter empty, as the leads
    tab has them once a day is picked in its date input, [filteredLeads]
    keeps the leads created at or before the bound, in the order they
    came. *)
Lemma filteredLeads_dateTo b rows :
  filteredLeads
    {| searchTerm := EmptyString; filterStatus := EmptyString;
       filterType := EmptyString; filterUser := EmptyString;
       dateFrom := NoDate; dateTo := Instant b |} rows
  = filter (fun l => match Lead.created_at l with
                     | Some t => Z.leb t b
                     | None => false
                     end) rows.
Proof. reflexivity. Qed.

(** The leads tab over the rows GET /api/leads answered, with the day [d]
    picked in the date input: the rows shown are, newest first, the leads
    of the store the caller may list that were created no later than the
    midnight that begins [d].  A lead created later than that midnight, on
    the day [d] itself or after it, is not shown. *)
Lemma picked_day_cuts_at_its_midnight st user d :
  let shown :=
    filteredLeads
      {| searchTerm := EmptyString; filterStatus := EmptyString;
         filterType := EmptyString; filterUser := EmptyString;
         dateFrom := NoDate; dateTo := Instant (Date_of_day d) |}
      (fetched_leads (get_leads st user)) in
  (forall l, In l shown <->
             In l (leads st)
             /\ (is_telecaller user = true ->
                 Lead.assigned_to l = Some (Payload.id user))
             /\ exists t, Lead.created_at l = Some t /\ t <= Date_of_day d)
  /\ StronglySorted newer_first shown
  /\ (forall l t, Lead.created_at l = Some t -> Date_of_day d < t -> ~ In l shown).
Proof.
  intros shown. subst shown. rewrite filteredLeads_dateTo.
  unfold get_leads, fetched_leads.
  assert (Sel : forall l, In l (select_leads st user) <->
                          In l (leads st)
                          /\ (is_telecaller user = true ->
                              Lead.assigned_to l = Some (Payload.id user))).
  { intros l. unfold select_leads. destruct (is_telecaller user).
    - rewrite filter_In. unfold col_eq. split.
      + intros [Hin Hc]. split; [exact Hin|]. intros _.
        destruct (Lead.assigned_to l) as [m|]; [|discriminate].
        apply Z.eqb_eq in Hc. now subst.
      + intros [Hin Ha]. split; [exact Hin|]. rewrite (Ha eq_refl). apply Z.eqb_refl.
    - split; [intros Hin; split; [exact Hin | discriminate] | tauto]. }
  assert (Shown : forall l,
             In l (filter (fun l => match Lead.created_at l with
                                    | Some t => Z.leb t (Date_of_day d)
                                    | None => false
                                    end)
                     (order_by_created_at_desc (select_leads st user))) <->
             In l (select_leads st user)
             /\ exists t, Lead.created_at l = Some t /\ t <= Date_of_day d).
  { intros l. rewrite filter_In. split.
    - intros [Hin Hb].
      apply (Permutation_in _ (order_by_created_at_desc_perm _)) in Hin.
      split; [exact Hin|].
      destruct (Lead.created_at l) as [t|]; [|discriminate].
      apply Z.leb_le in Hb. now exists t.
    - intros [Hin (t & Ht & Hb)]. split.
      + now apply (Permutation_in _ (Permutation_sym (order_by_created_at_desc_perm _))).
      + rewrite Ht. now apply Z.leb_le. }
  split; [|split].
  - intros l. rewrite Shown, Sel. tauto.
  - apply filter_sorted, order_by_created_at_desc_sorted.
  - intros l t Ht Hlt Hin. apply Shown in Hin. destruct Hin as [_ (t' & Ht' & Hb)].
    rewrite Ht in Ht'. inversion Ht'; subst t'. lia.
Qed.

(** C8. The date range of the leads tab does not include the day of its
    upper bound.  The store holds a lead created on 2024-01-14 at 10:00,
    one created on 2024-01-15 at 23:00 and one created on 2024-01-16 at
    noon; an admin lists them and picks 2024-01-15 in the date input (the
    lower bound is empty, nothing in the page sets it).  The list route
    answers the three leads newest first, and the tab shows the lead of
    2024-01-14 alone: the lead created on 2024-01-15, the day picked, is
    left out. *)
Theorem date_to_leaves_out_the_day_picked :
  let user := Sample.account 1 "admin" in
  let picked := 19737 in
  let f := {| searchTerm := EmptyString; filterStatus := EmptyString;
              filterType := EmptyString; filterUser := EmptyString;
              dateFrom := NoDate; dateTo := Instant (Date_of_day picked) |} in
  let on_day := Sample.lead 2 None (19737 * 86400000 + 82800000) in
  handle true 0 Sample.dated Sample.admin GET_leads
  = (get_leads Sample.dated user, Sample.dated)
  /\ fetched_leads (get_leads Sample.dated user)
     = [Sample.lead 3 None (19738 * 86400000 + 43200000);
        on_day;
        Sample.lead 1 None (19736 * 86400000 + 36000000)]
  /\ option_map day_of (Lead.created_at on_day) = Some picked
  /\ filteredLeads f (fetched_leads (get_leads Sample.dated user))
     = [Sample.lead 1 None (19736 * 86400000 + 36000000)].
Proof.
  cbv zeta. split; [reflexivity|]. split; [reflexivity|].
  split; [reflexivity|]. vm_compute. reflexivity.
Qed.

End DateRange.

(** ** The store across requests *)

Section StoreFacts.
Import JS Backend Store.

Lemma run_import_frame now incoming st :
  let st' := snd (run_import now incoming st) in
  users st' = users st /\ call_logs st' = call_logs st
  /\ audit_logs st' = audit_logs st /\ seq_audit st' = seq_audit st.
Proof.
  revert st. induction incoming as [|l rest IH]; intros st; simpl.
  - repeat split.
  - destruct (props_of l) as [props|]; simpl; [|repeat split].
    destruct (IH (insert_lead (imported_row now st props) st)) as (H1 & H2 & H3 & H4).
    simpl in IH. rewrite H1, H2, H3, H4. repeat split.
Qed.

Lemma audit_grows now entity entityId action details by_ st0 :
  audit_logs (audit now entity entityId action details by_ st0)
  = (audit_logs st0
     ++ [{| Audit.id := seq_audit st0 + 1;
            Audit.entity := entity;
            Audit.entity_id := toString (or_else (Some entityId) (JStr EmptyString));
            Audit.action := action;
            Audit.details := match details with JStr s => s | d => JSON_stringify d end;
            Audit.performed_by := bind_text (Some by_);
            Audit.created_at := now |}])%list.
Proof. reflexivity. Qed.

Lemma logged_audit now st r entity entityId action details by_ st0 :
  audit_logs st0 = audit_logs st -> seq_audit st0 = seq_audit st ->
  logged now st (Json r) (audit now entity entityId action details by_ st0).
Proof.
  intros H1 H2. eapply logged_one.
  - rewrite audit_grows, H1. reflexivity.
  - cbn [Audit.id]. now rewrite H2.
  - reflexivity.
Qed.

Lemma register_logged now st body :
  logged now st (fst (register now st body)) (snd (register now st body)).
Proof.
  unfold register.
  destruct (get body "email") as [email'|];
    destruct (get body "password") as [[| | |pw| |]|]; cbn [fst snd];
    repeat match goal with
           | |- context [if ?c then _ else _] => destruct c; cbn [fst snd]
           end;
    try (now apply logged_nothing).
  now apply logged_audit.
Qed.

Lemma post_lead_logged now st user body :
  logged now st (fst (post_lead now st user body)) (snd (post_lead now st user body)).
Proof. unfold post_lead; cbn [fst snd]. now apply logged_audit. Qed.

Lemma put_lead_logged now st user id body :
  logged now st (fst (put_lead now st user id body)) (snd (put_lead now st user id body)).
Proof.
  unfold put_lead. destruct (Nat.eqb _ 0); cbn [fst snd].
  - now apply logged_nothing.
  - now apply logged_audit.
Qed.

Lemma delete_lead_logged now st user id :
  logged now st (fst (delete_lead now st user id)) (snd (delete_lead now st user id)).
Proof. unfold delete_lead; cbn [fst snd]. now apply logged_audit. Qed.

Lemma import_leads_logged now st user body :
  logged now st (fst (import_leads now st user body)) (snd (import_leads now st user body)).
Proof.
  unfold import_leads.
  destruct (get body "leads") as [[| | | |incoming|]|]; cbn [fst snd];
    try (now apply logged_nothing).
  pose proof (run_import_frame now incoming st) as (_ & _ & F3 & F4).
  destruct (run_import now incoming st) as [[|] st1]; cbn [fst snd] in *.
  - now apply logged_audit.
  - now apply logged_nothing.
Qed.

Lemma merge_leads_logged now st user body :
  logged now st (fst (merge_leads now st user body)) (snd (merge_leads now st user body)).
Proof.
  unfold merge_leads.
  destruct (get body "keepId") as [keepId|];
    destruct (get body "mergeIds") as [[| | | |mergeIds|]|]; cbn [fst snd];
    try (now apply logged_nothing).
  destruct (truthy keepId); cbn [negb fst snd].
  - now apply logged_audit.
  - now apply logged_nothing.
Qed.

Lemma post_call_logged now st user body :
  logged now st (fst (post_call now st user body)) (snd (post_call now st user body)).
Proof. unfold post_call; cbn [fst snd]. now apply logged_audit. Qed.

Lemma requireRole_cases roles user next st :
  requireRole roles user next st = next
  \/ requireRole roles user next st = (Error 403 "Forbidden", st).
Proof. unfold requireRole. destruct (has_role roles user); auto. Qed.

(** X1. The audit log only grows, and by one record at most per request:
    a request that is refused, and a read, add nothing, every other request
    adds exactly one record, stamped with the clock of the request and the
    next audit id. *)
Theorem audit_log_is_append_only production now st auth req :
  let out := handle production now st auth req in
  match fst out, req with
  | Error _ _, _ | Json _, (GET_leads | GET_lead _) =>
      audit_logs (snd out) = audit_logs st
  | Json _, _ =>
      exists rec,
        audit_logs (snd out) = (audit_logs st ++ [rec])%list
        /\ Audit.id rec = seq_audit st + 1
        /\ Audit.created_at rec = now
  end.
Proof.
  assert (Use : forall r st', logged now st r st' ->
                match r with
                | Error _ _ => audit_logs st' = audit_logs st
                | Json _ => exists rec,
                    audit_logs st' = (audit_logs st ++ [rec])%list
                    /\ Audit.id rec = seq_audit st + 1
                    /\ Audit.created_at rec = now
                end).
  { intros r st' [s e st1 H|r1 rec st1 H1 H2 H3]; eauto. }
  assert (Gate : forall roles user next,
             logged now st (fst next) (snd next) ->
             logged now st (fst (requireRole roles user next st))
               (snd (requireRole roles user next st))).
  { intros roles user next H.
    destruct (requireRole_cases roles user next st) as [-> | ->]; [exact H|].
    now apply logged_nothing. }
  cbv zeta.
  destruct req as [body| |id|body|id body|id|body|body|body]; cbn [handle].
  1: { pose proof (Use _ _ (register_logged now st body)) as H.
       destruct (fst (register now st body)); exact H. }
  all: destruct (authMiddleware production st auth) as [user|denied] eqn:A;
    [| destruct (authMiddleware_denies _ _ _ _ A) as (s' & e & ->); reflexivity ].
  - reflexivity.
  - cbn [fst snd]. destruct (get_lead st user id); reflexivity.
  - pose proof (Use _ _ (Gate ["admin"; "manager"] user _ (post_lead_logged now st user body))) as H.
    destruct (fst (requireRole _ user (post_lead now st user body) st)); exact H.
  - pose proof (Use _ _ (put_lead_logged now st user id body)) as H.
    destruct (fst (put_lead now st user id body)); exact H.
  - pose proof (Use _ _ (Gate ["admin"; "manager"] user _ (delete_lead_logged now st user id))) as H.
    destruct (fst (requireRole _ user (delete_lead now st user id) st)); exact H.
  - pose proof (Use _ _ (Gate ["admin"; "manager"] user _ (import_leads_logged now st user body))) as H.
    destruct (fst (requireRole _ user (import_leads now st user body) st)); exact H.
  - pose proof (Use _ _ (Gate ["admin"; "manager"] user _ (merge_leads_logged now st user body))) as H.
    destruct (fst (requireRole _ user (merge_leads now st user body) st)); exact H.
  - pose proof (Use _ _ (post_call_logged now st user body)) as H.
    destruct (fst (post_call now st user body)); exact H.
Qed.

(** *** Refused requests *)

(** X2. A request that is refused has no effect on the database, with one
    exception: an import that meets a null element is answered 500 after
    the rows before it were queued (they are inserted). *)
Theorem refused_request_changes_nothing production now st auth req status error st' :
  handle production now st auth req = (Error status error, st') ->
  st' = st \/ (status = 500 /\ exists body, req = POST_leads_import body).
Proof.
  assert (Gate : forall roles user next,
             (next = (Error status error, st') -> st' = st
                \/ (status = 500 /\ exists body, req = POST_leads_import body)) ->
             requireRole roles user next st = (Error status error, st') ->
             st' = st \/ (status = 500 /\ exists body, req = POST_leads_import body)).
  { intros roles user next Hn H.
    destruct (requireRole_cases roles user next st) as [E|E]; rewrite E in H.
    - auto.
    - inversion H. auto. }
  destruct req as [body| |id|body|id body|id|body|body|body]; cbn [handle].
  1: { unfold register.
       destruct (get body "email") as [email'|];
         destruct (get body "password") as [[| | |pw| |]|];
         repeat match goal with
                | |- context [if ?c then _ else _] => destruct c
                end;
         intros H; inversion H; auto. }
  all: destruct (authMiddleware production st auth) as [user|denied] eqn:A;
    [| intros H; inversion H; auto ].
  - intros H; inversion H; auto.
  - intros H; inversion H; auto.
  - apply Gate. unfold post_lead. discriminate.
  - unfold put_lead. destruct (Nat.eqb _ 0); intros H; inversion H; auto.
  - apply Gate. unfold delete_lead. discriminate.
  - apply Gate. unfold import_leads.
    destruct (get body "leads") as [[| | | |incoming|]|];
      try (intros H; inversion H; auto; fail).
    destruct (run_import now incoming st) as [[|] st1]; intros H; inversion H.
    right. eauto.
  - apply Gate. unfold merge_leads.
    destruct (get body "keepId") as [keepId|];
      destruct (get body "mergeIds") as [[| | | |mergeIds|]|];
      try (intros H; inversion H; auto; fail).
    destruct (truthy keepId); intros H; inversion H; auto.
  - unfold post_call. discriminate.
Qed.

(** A telecaller's merge on the sample store is refused and changes
    nothing. *)
Lemma refused_request_changes_nothing_witness :
  snd (handle true 5000 Sample.store Sample.telecaller
         (POST_leads_merge [("keepId", JNum 1); ("mergeIds", JArr [JNum 2])]))
  = Sample.store
  \/ (403 = 500
      /\ exists body,
           POST_leads_merge [("keepId", JNum 1); ("mergeIds", JArr [JNum 2])]
           = POST_leads_import body).
Proof.
  exact (refused_request_changes_nothing true 5000 Sample.store Sample.telecaller
           (POST_leads_merge [("keepId", JNum 1); ("mergeIds", JArr [JNum 2])])
           403 "Forbidden" _ eq_refl).
Defined.

(** *** The ids of leads *)

Lemma NoDup_map_filter {A B : Type} (f : A -> B) (p : A -> bool) xs :
  NoDup (map f xs) -> NoDup (map f (filter p xs)).
Proof.
  induction xs as [|x xs IH]; simpl; [auto|].
  intros H. inversion H as [|? ? Hx Hxs]; subst.
  destruct (p x); simpl; [|auto].
  constructor; [|auto].
  intros Hin. apply Hx. apply in_map_iff in Hin.
  destruct Hin as (y & Hy & Hin). apply filter_In in Hin.
  apply in_map_iff. exists y. tauto.
Qed.

Lemma Forall_filter {A : Type} (P : A -> Prop) (p : A -> bool) xs :
  Forall P xs -> Forall P (filter p xs).
Proof.
  rewrite !Forall_forall. intros H x Hx. apply filter_In in Hx. now apply H.
Qed.

Lemma leads_wf_filter p st st0 :
  leads st0 = leads st -> seq_leads st0 = seq_leads st ->
  leads_wf st -> leads_wf (with_leads (filter p (leads st0)) st0).
Proof.
  intros H1 H2 [Hn Hf]. unfold leads_wf. cbn [leads with_leads seq_leads].
  rewrite H1, H2. split; [now apply NoDup_map_filter | now apply Forall_filter].
Qed.

Lemma leads_wf_insert row st :
  Lead.id row = seq_leads st + 1 ->
  leads_wf st -> leads_wf (insert_lead row st).
Proof.
  intros Hid [Hn Hf]. unfold leads_wf. cbn [leads insert_lead seq_leads].
  split.
  - rewrite map_app. cbn [map].
    apply NoDup_app_remove_l with (l := []). cbn [List.app].
    apply Permutation_NoDup with (l := (Lead.id row :: map Lead.id (leads st))).
    + apply Permutation_cons_append.
    + constructor; [|exact Hn].
      intros Hin. apply in_map_iff in Hin. destruct Hin as (l & Hl & Hin).
      rewrite Forall_forall in Hf. specialize (Hf l Hin). lia.
  - apply Forall_app. split.
    + eapply Forall_impl; [|exact Hf]. cbn beta. intros l Hl. lia.
    + constructor; [lia|constructor].
Qed.

Lemma leads_wf_frame st st0 :
  leads st0 = leads st -> seq_leads st0 = seq_leads st ->
  leads_wf st -> leads_wf st0.
Proof. unfold leads_wf. now intros -> ->. Qed.

Lemma run_import_wf now incoming st :
  leads_wf st ->
  leads_wf (snd (run_import now incoming st))
  /\ seq_leads st <= seq_leads (snd (run_import now incoming st)).
Proof.
  revert st. induction incoming as [|l rest IH]; intros st W; cbn [run_import].
  - split; [exact W | cbn [snd]; lia].
  - destruct (props_of l) as [props|]; [|split; [exact W | cbn [snd]; lia]].
    destruct (IH (insert_lead (imported_row now st props) st)) as [W' Hs].
    + now apply leads_wf_insert.
    + split; [exact W'|]. cbn [seq_leads insert_lead imported_row Lead.id] in Hs. lia.
Qed.

Lemma update_leads_wf assignments id st :
  leads_wf st -> leads_wf (with_leads (update_leads assignments id (leads st)) st).
Proof.
  intros [Hn Hf]. unfold leads_wf. cbn [leads with_leads seq_leads].
  pose proof (update_leads_in_place assignments id (leads st)) as F.
  split.
  - now rewrite (Forall2_ids _ _ _ (fun l l' H => proj1 H) F).
  - clear Hn. induction F as [|l l' rows rows' H1 _ IH]; [constructor|].
    inversion Hf; subst. constructor; [|auto].
    destruct H1 as (Hi & _). now rewrite Hi.
Qed.

(** X3. Every request keeps the ids of the leads table in order: no two
    rows share an id, no id lies above the last one AUTOINCREMENT handed
    out, and that counter never goes back, so the id of a deleted or
    merged lead is not given to a later one. *)
Theorem lead_ids_stay_unique production now st auth req :
  leads_wf st ->
  let st' := snd (handle production now st auth req) in
  leads_wf st' /\ seq_leads st <= seq_leads st'.
Proof.
  intros W. cbv zeta.
  assert (Same : leads_wf st /\ seq_leads st <= seq_leads st) by (split; [exact W | lia]).
  assert (Gate : forall roles user next,
             (leads_wf (snd next) /\ seq_leads st <= seq_leads (snd next)) ->
             leads_wf (snd (requireRole roles user next st))
             /\ seq_leads st <= seq_leads (snd (requireRole roles user next st))).
  { intros roles user next H.
    destruct (requireRole_cases roles user next st) as [-> | ->]; [exact H | exact Same]. }
  destruct req as [body| |id|body|id body|id|body|body|body]; cbn [handle].
  1: { unfold register.
       destruct (get body "email") as [email'|];
         destruct (get body "password") as [[| | |pw| |]|];
         repeat match goal with
                | |- context [if ?c then _ else _] => destruct c
                end; cbn [snd]; exact Same. }
  all: destruct (authMiddleware production st auth) as [user|denied] eqn:A;
    [| exact Same ].
  - exact Same.
  - exact Same.
  - apply Gate. unfold post_lead. cbn [snd]. split.
    + apply (leads_wf_insert _ st); [reflexivity | exact W].
    + cbn. lia.
  - unfold put_lead. destruct (Nat.eqb _ 0); cbn [snd]; [exact Same|].
    split; [|cbn; lia].
    exact (update_leads_wf _ id st W).
  - apply Gate. unfold delete_lead. cbn [snd]. split; [|cbn; lia].
    exact (leads_wf_filter _ st st eq_refl eq_refl W).
  - apply Gate. unfold import_leads.
    destruct (get body "leads") as [[| | | |incoming|]|]; cbn [snd]; try exact Same.
    destruct (run_import_wf now incoming st W) as [W' Hs].
    destruct (run_import now incoming st) as [[|] st1]; cbn [snd] in *.
    + split; [exact W' | cbn; lia].
    + split; assumption.
  - apply Gate. unfold merge_leads.
    destruct (get body "keepId") as [keepId|];
      destruct (get body "mergeIds") as [[| | | |mergeIds|]|]; cbn [snd]; try exact Same.
    destruct (truthy keepId); cbn [negb snd]; [|exact Same].
    split; [|cbn; lia].
    exact (leads_wf_filter _ st st eq_refl eq_refl W).
  - unfold post_call. cbn [snd]. exact Same.
Qed.

(** The sample store is in order, and stays so when an admin creates a
    lead. *)
Lemma lead_ids_stay_unique_witness :
  leads_wf (snd (handle true 5000 Sample.store Sample.admin
                   (POST_leads [("name", JStr "Ravi")])))
  /\ 3 <= seq_leads (snd (handle true 5000 Sample.store Sample.admin
                            (POST_leads [("name", JStr "Ravi")]))).
Proof.
  apply (lead_ids_stay_unique true 5000 Sample.store Sample.admin
           (POST_leads [("name", JStr "Ravi")])).
  split.
  - repeat constructor; simpl; intuition discriminate.
  - repeat constructor; simpl; lia.
Defined.

(** *** Create, read, delete *)

Lemma authMiddleware_same_users production st st' auth :
  users st' = users st ->
  authMiddleware production st' auth = authMiddleware production st auth.
Proof. unfold authMiddleware. now intros ->. Qed.

Lemma find_fresh_id (rows : list Lead.t) (row : Lead.t) :
  Forall (fun l => Lead.id l < Lead.id row) rows ->
  find (fun l => Z.eqb (Lead.id l) (Lead.id row)) (rows ++ [row]) = Some row.
Proof.
  induction 1 as [|l rows Hl _ IH]; cbn [find List.app].
  - now rewrite Z.eqb_refl.
  - destruct (Z.eqb (Lead.id l) (Lead.id row)) eqn:E; [|exact IH].
    apply Z.eqb_eq in E. lia.
Qed.

Lemma find_deleted (id : Z) (rows : list Lead.t) :
  find (fun l => Z.eqb (Lead.id l) id)
    (filter (fun l => negb (Z.eqb (Lead.id l) id)) rows) = None.
Proof.
  induction rows as [|l rows IH]; cbn [filter find]; [reflexivity|].
  destruct (Z.eqb (Lead.id l) id) eqn:E; cbn [negb find]; [exact IH|].
  now rewrite E.
Qed.

(** X4. A lead an admin or a manager creates is read back under the id
    the answer gave, as long as no row sits above the AUTOINCREMENT
    counter: the row holds the columns of the body, stamped with the clock
    of the request; a missing status reads new, missing notes read as the
    empty list, and a score that is missing or zero reads NULL. *)
Theorem created_lead_is_read_back production now now' st auth user body :
  authMiddleware production st auth = inl user ->
  has_role ["admin"; "manager"] user = true ->
  Forall (fun l => Lead.id l <= seq_leads st) (leads st) ->
  exists row st',
    handle production now st auth (POST_leads body)
    = (Json (Data_id (seq_leads st + 1)), st')
    /\ handle production now' st' auth (GET_lead (seq_leads st + 1))
       = (Json (Data_row row), st')
    /\ Lead.created_at row = Some now
    /\ Lead.name row = bind_text (get body "name")
    /\ Lead.phone row = bind_text (get body "phone")
    /\ Lead.email row = bind_text (get body "email")
    /\ (get body "status" = None -> Lead.status row = Some "new")
    /\ (get body "notes" = None -> Lead.notes row = Some "[]")
    /\ (get body "score" = None \/ get body "score" = Some (JNum 0) ->
        Lead.score row = None)
    /\ (forall n, get body "score" = Some (JNum n) -> n <> 0 ->
                  Lead.score row = Some n).
Proof.
  intros A R F.
  eexists. eexists. split.
  { unfold handle, requireRole. rewrite A, R. unfold post_lead. reflexivity. }
  split.
  { unfold handle.
    rewrite (authMiddleware_same_users production st _ auth) by reflexivity.
    rewrite A. unfold get_lead. cbn [leads audit insert_lead].
    match goal with
    | |- context [find _ (leads st ++ [?r])%list] =>
        change (seq_leads st + 1) with (Lead.id r) at 1;
        rewrite (find_fresh_id (leads st) r)
    end.
    - reflexivity.
    - eapply Forall_impl; [|exact F]. cbn. intros l Hl. lia. }
  cbn [Lead.created_at Lead.name Lead.phone Lead.email Lead.status Lead.notes Lead.score].
  repeat split.
  - now intros ->.
  - now intros ->.
  - now intros [-> | ->].
  - intros n -> Hn. cbn [or_else truthy].
    destruct (Z.eqb n 0) eqn:E; [apply Z.eqb_eq in E; contradiction | reflexivity].
Qed.

(** An admin creates a lead on the sample store and reads it back. *)
Lemma created_lead_is_read_back_witness :
  exists row st',
    handle true 5000 Sample.store Sample.admin
      (POST_leads [("name", JStr "Ravi"); ("score", JNum 0)])
    = (Json (Data_id 4), st')
    /\ handle true 6000 st' Sample.admin (GET_lead 4) = (Json (Data_row row), st')
    /\ Lead.name row = Some "Ravi" /\ Lead.status row = Some "new"
    /\ Lead.score row = None.
Proof.
  destruct (created_lead_is_read_back true 5000 6000 Sample.store Sample.admin
              (Sample.account 1 "admin") [("name", JStr "Ravi"); ("score", JNum 0)]
              eq_refl eq_refl)
    as (row & st' & H1 & H2 & _ & Hn & _ & _ & Hs & _ & Hz & _).
  - repeat constructor; simpl; lia.
  - exists row, st'. split; [exact H1|]. split; [exact H2|].
    split; [exact Hn|]. split; [now apply Hs | apply Hz; now right].
Defined.

(** X5. When an admin or a manager deletes a lead, the request succeeds
    whether or not a lead had that id, a read of the id is answered 404
    afterwards, and the other leads are the ones that were there, in their
    order. *)
Theorem deleted_lead_is_gone production now now' st auth user id :
  authMiddleware production st auth = inl user ->
  has_role ["admin"; "manager"] user = true ->
  exists st',
    handle production now st auth (DELETE_lead id) = (Json Success, st')
    /\ handle production now' st' auth (GET_lead id)
       = (Error 404 "Lead not found", st')
    /\ leads st' = filter (fun l => negb (Z.eqb (Lead.id l) id)) (leads st)
    /\ (forall l, In l (leads st) -> Lead.id l <> id -> In l (leads st')).
Proof.
  intros A R. eexists. split.
  { unfold handle, requireRole. rewrite A, R. unfold delete_lead. reflexivity. }
  split.
  { unfold handle.
    rewrite (authMiddleware_same_users production st _ auth) by reflexivity.
    rewrite A. unfold get_lead. cbn [leads audit with_leads].
    now rewrite find_deleted. }
  split; [reflexivity|].
  intros l Hl Hid. cbn [leads audit with_leads]. apply filter_In. split; [exact Hl|].
  apply negb_true_iff. now apply Z.eqb_neq.
Qed.

(** An admin deletes lead 2 of the sample store. *)
Lemma deleted_lead_is_gone_witness :
  exists st',
    handle true 5000 Sample.store Sample.admin (DELETE_lead 2) = (Json Success, st')
    /\ handle true 6000 st' Sample.admin (GET_lead 2) = (Error 404 "Lead not found", st')
    /\ map Lead.id (leads st') = [1; 3].
Proof.
  destruct (deleted_lead_is_gone true 5000 6000 Sample.store Sample.admin
              (Sample.account 1 "admin") 2 eq_refl eq_refl)
    as (st' & H1 & H2 & H3 & _).
  exists st'. split; [exact H1|]. split; [exact H2|]. now rewrite H3.
Defined.

(** *** Import *)

Lemma run_import_rows now incoming st :
  let objs := objects_before_null incoming in
  exists rows,
    leads (snd (run_import now incoming st)) = (leads st ++ rows)%list
    /\ map Lead.id rows
       = map (fun i => seq_leads st + 1 + Z.of_nat i) (seq 0 (List.length objs))
    /\ Forall2 (fun o r => exists st0, r = imported_row now st0 o) objs rows
    /\ fst (run_import now incoming st)
       = Nat.eqb (List.length objs) (List.length incoming).
Proof.
  revert st. induction incoming as [|l rest IH]; intros st; cbn [run_import objects_before_null].
  - exists []. cbn. rewrite app_nil_r. repeat split. constructor.
  - destruct (props_of l) as [props|].
    + destruct (IH (insert_lead (imported_row now st props) st)) as (rows & H1 & H2 & H3 & H4).
      exists (imported_row now st props :: rows).
      split; [|split; [|split]].
      * rewrite H1. cbn [leads insert_lead]. now rewrite <- app_assoc.
      * cbn [map List.length seq]. f_equal; [cbn; lia|].
        rewrite H2. cbn [seq_leads insert_lead imported_row Lead.id].
        rewrite <- seq_shift, map_map. apply map_ext. intros i. lia.
      * constructor; [eauto | exact H3].
      * exact H4.
    + exists []. cbn. rewrite app_nil_r. repeat split. constructor.
Qed.

(** X6. An import by an admin or a manager inserts, after the rows that
    were there, one row for each element of the array up to the first
    null, with consecutive new ids, stamped with the clock of the request,
    a missing status reading new and missing notes the empty list.  When
    the array has no null the answer counts all its elements; when it has
    one, the answer is 500, the rows before the null stay inserted, and
    nothing is logged. *)
Theorem import_inserts_up_to_first_null production now st auth user body incoming :
  authMiddleware production st auth = inl user ->
  has_role ["admin"; "manager"] user = true ->
  get body "leads" = Some (JArr incoming) ->
  let out := handle production now st auth (POST_leads_import body) in
  let objs := objects_before_null incoming in
  exists rows,
    leads (snd out) = (leads st ++ rows)%list
    /\ map Lead.id rows
       = map (fun i => seq_leads st + 1 + Z.of_nat i) (seq 0 (List.length objs))
    /\ Forall2 (fun o r =>
                  Lead.created_at r = Some now
                  /\ Lead.name r = bind_text (Some (or_else (get o "name") (JStr EmptyString)))
                  /\ (get o "status" = None -> Lead.status r = Some "new")
                  /\ (get o "notes" = None -> Lead.notes r = Some "[]"))
         objs rows
    /\ (List.length objs = List.length incoming ->
        fst out = Json (Imported (Z.of_nat (List.length incoming))))
    /\ (List.length objs <> List.length incoming ->
        fst out = Error 500 "TypeError" /\ audit_logs (snd out) = audit_logs st).
Proof.
  intros A R Hb. cbv zeta.
  unfold handle, requireRole. rewrite A, R. unfold import_leads. rewrite Hb.
  destruct (run_import_rows now incoming st) as (rows & H1 & H2 & H3 & H4).
  pose proof (run_import_frame now incoming st) as (_ & _ & F3 & _).
  exists rows.
  destruct (run_import now incoming st) as [[|] st1]; cbn [fst snd] in *.
  - symmetry in H4. apply Nat.eqb_eq in H4.
    split; [exact H1|]. split; [exact H2|]. split; [|split].
    + eapply Forall2_impl; [|exact H3]. cbn beta.
      intros o r (st0 & ->). cbn. repeat split; now intros ->.
    + reflexivity.
    + intros Hne. contradiction.
  - symmetry in H4. apply Nat.eqb_neq in H4.
    split; [exact H1|]. split; [exact H2|]. split; [|split].
    + eapply Forall2_impl; [|exact H3]. cbn beta.
      intros o r (st0 & ->). cbn. repeat split; now intros ->.
    + intros He. contradiction.
    + intros _. split; [reflexivity | exact F3].
Qed.

(** An import of three elements, the third of them null, on the sample
    store: two rows go in and the answer is 500. *)
Lemma import_inserts_up_to_first_null_witness :
  let out := handle true 5000 Sample.store Sample.admin
               (POST_leads_import
                  [("leads", JArr [JObj [("name", JStr "Ravi")]; JObj []; JNull;
                                   JObj [("name", JStr "Mina")]])]) in
  map Lead.id (leads (snd out)) = [1; 2; 3; 4; 5]
  /\ fst out = Error 500 "TypeError"
  /\ audit_logs (snd out) = [].
Proof.
  destruct (import_inserts_up_to_first_null true 5000 Sample.store Sample.admin
              (Sample.account 1 "admin")
              [("leads", JArr [JObj [("name", JStr "Ravi")]; JObj []; JNull;
                               JObj [("name", JStr "Mina")]])]
              [JObj [("name", JStr "Ravi")]; JObj []; JNull; JObj [("name", JStr "Mina")]]
              eq_refl eq_refl eq_refl)
    as (rows & H1 & H2 & _ & _ & H5).
  cbv zeta. split.
  - rewrite H1, map_app, H2. reflexivity.
  - apply H5. cbn. discriminate.
Defined.

(** *** Call logs *)


(** *** The list route *)

(** X8. GET /api/leads answers every authenticated caller, leaves the
    database as it is, and lists newest first each lead the caller may see
    exactly once: all the leads for a caller who is no telecaller, the
    leads assigned to the caller for a telecaller. *)
Theorem get_leads_lists_each_visible_lead_once production now st auth user :
  authMiddleware production st auth = inl user ->
  exists rows,
    handle production now st auth GET_leads = (Json (Data_rows rows), st)
    /\ StronglySorted newer_first rows
    /\ Permutation rows (select_leads st user)
    /\ (is_telecaller user = false -> Permutation rows (leads st))
    /\ (is_telecaller user = true ->
        forall l, In l rows <->
                  In l (leads st) /\ Lead.assigned_to l = Some (Payload.id user)).
Proof.
  intros A. eexists. split.
  { unfold handle. rewrite A. unfold get_leads. reflexivity. }
  split; [apply order_by_created_at_desc_sorted|].
  split; [apply order_by_created_at_desc_perm|].
  split.
  - intros T. unfold select_leads. rewrite T. apply order_by_created_at_desc_perm.
  - intros T. now apply (get_leads_scoped st user).
Qed.

(** The admin's list of the sample store. *)
Lemma get_leads_lists_each_visible_lead_once_witness :
  exists rows,
    handle true 5000 Sample.store Sample.admin GET_leads
    = (Json (Data_rows rows), Sample.store)
    /\ map Lead.id rows = [3; 2; 1].
Proof.
  destruct (get_leads_lists_each_visible_lead_once true 5000 Sample.store Sample.admin
              (Sample.account 1 "admin") eq_refl) as (rows & H & _).
  exists rows. split; [exact H|].
  inversion H. reflexivity.
Defined.

Lemma bind_text_of_text s : bind_text (Some (col_json s)) = s.
Proof. destruct s; reflexivity. Qed.

(** X9. Outside production a request without an Authorization header runs
    as the account of admin@crm.com when there is one: if that account has
    the admin role, the request passes the gate of the routes reserved to
    admins and managers (here it deletes a lead), and its audit record
    names admin@crm.com.  In production the same request is answered 401
    and changes nothing. *)
Theorem missing_token_runs_as_seeded_admin now st row id :
  find (fun u => text_eqb (User.email u) (Some "admin@crm.com")) (users st) = Some row ->
  User.role row = Some "admin" ->
  (exists st',
      handle false now st None (DELETE_lead id) = (Json Success, st')
      /\ find (fun l => Z.eqb (Lead.id l) id) (leads st') = None
      /\ exists rec, audit_logs st' = (audit_logs st ++ [rec])%list
                     /\ Audit.action rec = "delete"
                     /\ Audit.performed_by rec = Some "admin@crm.com")
  /\ handle true now st None (DELETE_lead id) = (Error 401 "Missing token", st).
Proof.
  intros F R. split; [|reflexivity].
  assert (E : User.email row = Some "admin@crm.com").
  { apply find_some in F. destruct F as [_ F]. unfold text_eqb in F.
    destruct (User.email row) as [e|]; [|discriminate].
    apply String.eqb_eq in F. now subst. }
  eexists. split.
  { unfold handle, authMiddleware. rewrite F. unfold requireRole, has_role.
    cbn [Payload.role]. rewrite R. cbn [col_json includes existsb String.eqb].
    unfold delete_lead. reflexivity. }
  split.
  { cbn [leads audit with_leads]. apply find_deleted. }
  eexists. split; [reflexivity|]. split; [reflexivity|].
  cbn [Audit.performed_by performer Payload.email]. rewrite E. reflexivity.
Qed.

(** A store with the seeded admin, asked without a token to delete
    lead 1. *)
Lemma missing_token_runs_as_seeded_admin_witness :
  let seeded :=
    {| User.id := 1; User.name := Some "Admin User"; User.email := Some "admin@crm.com";
       User.password := Bcrypt "admin123"; User.role := Some "admin";
       User.theme := Some "light"; User.daily_target := None; User.suspended := 0;
       User.created_at := 0 |} in
  let st := {| users := [seeded]; leads := leads Sample.store; call_logs := [];
               audit_logs := []; seq_users := 1; seq_leads := 3; seq_calls := 0;
               seq_audit := 0 |} in
  fst (handle false 5000 st None (DELETE_lead 1)) = Json Success
  /\ handle true 5000 st None (DELETE_lead 1) = (Error 401 "Missing token", st).
Proof.
  cbv zeta.
  match goal with
  | |- fst (handle false 5000 ?st None _) = _ /\ _ =>
      destruct (missing_token_runs_as_seeded_admin 5000 st
                  {| User.id := 1; User.name := Some "Admin User";
                     User.email := Some "admin@crm.com";
                     User.password := Bcrypt "admin123"; User.role := Some "admin";
                     User.theme := Some "light"; User.daily_target := None;
                     User.suspended := 0; User.created_at := 0 |} 1 eq_refl eq_refl)
        as [(st' & H1 & _) H2]
  end.
  split; [now rewrite H1 | exact H2].
Defined.

(** *** What an update writes *)

Lemma set_col_read_same k v l :
  includes allowed k = true ->
  get (row_json (set_col k v l)) k = Some (stored k v).
Proof.
  intros H. destruct l. unfold includes, allowed in H. cbn [existsb] in H.
  repeat match type of H with
         | context [String.eqb k ?c] =>
             let E := fresh "E" in
             destruct (String.eqb k c) eqn:E;
             [apply String.eqb_eq in E; subst k; reflexivity|]
         end.
  discriminate.
Qed.

Lemma set_col_read_other k k' v l :
  k' <> k -> get (row_json (set_col k v l)) k' = get (row_json l) k'.
Proof.
  intros N. destruct l. unfold set_col.
  repeat match goal with
         | |- context [String.eqb k ?c] =>
             let E := fresh "E" in
             destruct (String.eqb k c) eqn:E;
             [apply String.eqb_eq in E; subst k|]
         end;
    try reflexivity;
    unfold row_json; cbn [get Lead.id Lead.name Lead.phone Lead.email Lead.type
                            Lead.source Lead.score Lead.status Lead.assigned_to
                            Lead.next_follow_up Lead.remarks Lead.notes Lead.created_at];
    repeat match goal with
           | |- context [String.eqb ?c k'] =>
               let E := fresh "E" in
               destruct (String.eqb c k') eqn:E;
               [apply String.eqb_eq in E; try (subst k'; contradiction N; reflexivity)|];
               try reflexivity
           end.
Qed.

Lemma includes_cons xs k k' :
  includes (k :: xs) k' = String.eqb k' k || includes xs k'.
Proof. reflexivity. Qed.

Lemma set_cols_read (f : string -> option json) fields l k' :
  (forall k, includes fields k = true -> includes allowed k = true) ->
  get (row_json (fold_left (fun l kv => set_col (fst kv) (snd kv) l)
                   (map (fun k => (k, f k)) fields) l)) k'
  = if includes fields k' then Some (stored k' (f k')) else get (row_json l) k'.
Proof.
  revert l. induction fields as [|k fields IH]; intros l Hall; cbn [map fold_left fst snd].
  - reflexivity.
  - rewrite IH.
    2: { intros k0 Hk0. apply Hall. rewrite includes_cons, Hk0. apply orb_true_r. }
    rewrite includes_cons.
    destruct (includes fields k') eqn:I; [now rewrite orb_true_r|].
    rewrite orb_false_r.
    destruct (String.eqb k' k) eqn:E.
    + apply String.eqb_eq in E. subst k'.
      apply set_col_read_same. apply Hall. rewrite includes_cons, String.eqb_refl.
      reflexivity.
    + apply String.eqb_neq in E. now apply set_col_read_other.
Qed.

Lemma includes_filter (p : string -> bool) xs k :
  includes (filter p xs) k = p k && includes xs k.
Proof.
  induction xs as [|x xs IH]; cbn [filter].
  - now rewrite andb_false_r.
  - destruct (p x) eqn:P; rewrite ?includes_cons, IH.
    + destruct (String.eqb k x) eqn:E; [|reflexivity].
      apply String.eqb_eq in E. subst. rewrite P. reflexivity.
    + destruct (String.eqb k x) eqn:E; [|reflexivity].
      apply String.eqb_eq in E. subst. rewrite P. reflexivity.
Qed.

Lemma includes_keys body k :
  includes (Object_keys body) k = match get body k with Some _ => true | None => false end.
Proof.
  unfold Object_keys. induction body as [|[k0 v] body IH]; cbn [map fst get].
  - reflexivity.
  - rewrite includes_cons, IH, String.eqb_sym. now destruct (String.eqb k0 k).
Qed.

Lemma combine_map {A B : Type} (f : A -> B) xs :
  combine xs (map f xs) = map (fun x => (x, f x)) xs.
Proof. induction xs as [|x xs IH]; cbn; [reflexivity | now rewrite IH]. Qed.

(** X10. What PUT /api/leads/:id does to the leads table, for every caller
    and every body with an allow-listed column: the answer is success; in
    each row of the given id, a column the body names shows the value of
    the body (notes its JSON text, score, assigned_to and next_follow_up as
    integers, the others as text) and every other column, the id and the
    creation time included, shows what it showed; rows of other ids are
    unchanged.  When no row has the id the answer is success all the
    same. *)
Theorem put_lead_writes_named_columns now st user id body :
  existsb (includes allowed) (Object_keys body) = true ->
  let out := put_lead now st user id body in
  fst out = Json Success
  /\ Forall2 (fun l l' =>
                if Z.eqb (Lead.id l) id
                then forall k,
                    get (row_json l') k
                    = match (if includes allowed k then get body k else None) with
                      | Some v => Some (written k v)
                      | None => get (row_json l) k
                      end
                else l' = l)
       (leads st) (leads (snd out)).
Proof.
  intros Hk. cbv zeta. unfold put_lead. rewrite no_fields_iff, Hk. cbn [negb fst snd].
  split; [reflexivity|].
  cbn [leads audit with_leads]. rewrite combine_map.
  unfold update_leads.
  induction (leads st) as [|l rows IH]; cbn [map]; constructor; [|exact IH].
  destruct (Z.eqb (Lead.id l) id); [|reflexivity].
  intros k. rewrite set_cols_read.
  2: { intros k0 H0. rewrite includes_filter in H0. now apply andb_true_iff in H0. }
  rewrite includes_filter, includes_keys.
  destruct (includes allowed k) eqn:Ia; cbn [andb]; [|reflexivity].
  destruct (get body k) as [v|]; [|reflexivity].
  f_equal. unfold written, stored.
  destruct (String.eqb k "notes") eqn:En.
  - apply String.eqb_eq in En. subst k. reflexivity.
  - reflexivity.
Qed.

(** A status update on the sample store, as the manager's and the
    telecaller's dashboards send it. *)
Lemma put_lead_writes_named_columns_witness :
  let out := put_lead 5000 Sample.store (Sample.account 2 "telecaller") 2
               [("status", JStr "contacted")] in
  fst out = Json Success
  /\ map Lead.status (leads (snd out)) = [Some "new"; Some "contacted"; Some "new"]
  /\ map Lead.score (leads (snd out)) = map Lead.score (leads Sample.store).
Proof.
  destruct (put_lead_writes_named_columns 5000 Sample.store
              (Sample.account 2 "telecaller") 2 [("status", JStr "contacted")] eq_refl)
    as [H _].
  cbv zeta. split; [exact H|]. split; reflexivity.
Defined.

End StoreFacts.

(** ** Accounts *)

Section AccountFacts.
Import JS Accounts Backend.

Lemma find_last_user (p : User.t -> bool) rows row :
  existsb p rows = false -> p row = true -> find p (rows ++ [row]) = Some row.
Proof.
  induction rows as [|u rows IH]; cbn [existsb find List.app]; intros H Hp.
  - now rewrite Hp.
  - apply orb_false_iff in H. destruct H as [H1 H2]. rewrite H1. now apply IH.
Qed.

(** What bcrypt reads of a text stops with the count: the text beyond is
    not looked at. *)
Lemma cycle_prefix n data data' head rest rest' :
  (n <= String.length head)%nat ->
  cycle n data (head ++ rest) = cycle n data' (head ++ rest').
Proof.
  revert head. induction n as [|n IH]; intros head Hn; [reflexivity|].
  destruct head as [|c head]; cbn [String.length] in Hn; [lia|].
  cbn [append cycle]. f_equal. apply IH. lia.
Qed.

Lemma append_assoc3 (a b c : string) : ((a ++ b) ++ c = a ++ (b ++ c))%string.
Proof.
  induction a as [|x a IH]; cbn [append]; [reflexivity|]. now rewrite IH.
Qed.

(** Two passwords with the same first 72 bytes are one password to
    bcrypt. *)
Lemma bcrypt_key_cut head tail tail' :
  String.length head = 72%nat ->
  bcrypt_key (head ++ tail) = bcrypt_key (head ++ tail').
Proof.
  intros H. unfold bcrypt_key. rewrite !append_assoc3.
  apply cycle_prefix. lia.
Qed.

(** X11. An account that has just registered with an email and a password
    given as non-empty strings logs in with them: the login answers a token
    for the same account id, with the role the registration stored, and
    leaves the database as it is.  The password counts as far as bcrypt
    reads it: a password with the same key material, such as one with the
    same first 72 bytes, is answered as the registered one is, and a
    password with another key material is answered 401 Invalid
    credentials. *)
Theorem registered_account_logs_in production now st auth body e pw :
  get body "email" = Some (JStr e) -> e <> EmptyString ->
  get body "password" = Some (JStr pw) -> pw <> EmptyString ->
  existsb (fun u => text_eqb (User.email u) (Some e)) (users st) = false ->
  let creds := fun p => [("email", JStr e); ("password", JStr p)] in
  exists user st',
    handle production now st auth (POST_auth_register body)
    = (Json (Session (jwt_sign user) user), st')
    /\ (exists user',
          login st' (creds pw) = Some (Json (Session (jwt_sign user') user'), st')
          /\ Payload.id user' = Payload.id user
          /\ Payload.email user' = JStr e
          /\ Payload.role user'
             = col_json (bind_text (Some (or_else (get body "role") (JStr "telecaller"))))
          /\ (forall r, Payload.role user = JStr r -> Payload.role user' = JStr r))
    /\ (forall pw', bcrypt_key pw' = bcrypt_key pw ->
          login st' (creds pw') = login st' (creds pw))
    /\ (forall head tail tail', String.length head = 72%nat -> pw = head ++ tail ->
          login st' (creds (head ++ tail')) = login st' (creds pw))
    /\ (forall pw', bcrypt_key pw' <> bcrypt_key pw ->
          login st' (creds pw') = Some (Error 401 "Invalid credentials", st')).
Proof.
  intros He Hne Hp Hpw Hfree creds. subst creds. cbv beta.
  assert (Te : truthy (JStr e) = true).
  { cbn. destruct (String.eqb e EmptyString) eqn:E; [|reflexivity].
    apply String.eqb_eq in E. contradiction. }
  assert (Tp : truthy (JStr pw) = true).
  { cbn. destruct (String.eqb pw EmptyString) eqn:E; [|reflexivity].
    apply String.eqb_eq in E. contradiction. }
  unfold handle, register. rewrite He, Hp, Te, Tp. cbn [negb orb].
  cbn [User.email bind_text]. rewrite Hfree.
  eexists. eexists. split; [reflexivity|].
  assert (Find : forall body',
             get body' "email" = Some (JStr e) ->
             forall row,
               User.email row = Some e ->
               find (fun u => text_eqb (User.email u) (bind_text (get body' "email")))
                 (users st ++ [row]) = Some row).
  { intros body' -> row Hrow. apply find_last_user.
    - exact Hfree.
    - rewrite Hrow. cbn. apply String.eqb_refl. }
  assert (Same : forall st' pw',
             bcrypt_key pw' = bcrypt_key pw ->
             login st' [("email", JStr e); ("password", JStr pw')]
             = login st' [("email", JStr e); ("password", JStr pw)]).
  { intros st' pw' K. unfold login.
    cbn [get String.eqb Ascii.eqb Bool.eqb andb].
    destruct (find _ (users st')) as [row|]; [|reflexivity].
    unfold compareSync. destruct (User.password row) as [p]. now rewrite K. }
  split; [|split; [|split]].
  - eexists. split.
    + unfold login. cbn [users audit insert_user].
      rewrite Find by reflexivity.
      cbn [get String.eqb Ascii.eqb Bool.eqb andb User.password compareSync].
      rewrite String.eqb_refl. reflexivity.
    + cbn [Payload.id Payload.email Payload.role User.id User.email User.role col_json].
      repeat split.
      intros r Hr. now rewrite Hr.
  - intros pw' K. now apply Same.
  - intros head tail tail' Hlen ->. apply Same. now apply bcrypt_key_cut.
  - intros pw' Hne'. unfold login. cbn [users audit insert_user].
    rewrite Find by reflexivity.
    cbn [get String.eqb Ascii.eqb Bool.eqb andb User.password compareSync].
    apply String.eqb_neq in Hne'. now rewrite Hne'.
Qed.

(** A manager registers on the sample store and logs in; a guess is
    refused. *)
Lemma registered_account_logs_in_witness :
  exists user st' user',
    handle true 5000 Sample.store None
      (POST_auth_register
         [("email", JStr "mira@x.com"); ("password", JStr "pw"); ("role", JStr "manager")])
    = (Json (Session (jwt_sign user) user), st')
    /\ login st' [("email", JStr "mira@x.com"); ("password", JStr "pw")]
       = Some (Json (Session (jwt_sign user') user'), st')
    /\ Payload.role user' = JStr "manager"
    /\ login st' [("email", JStr "mira@x.com"); ("password", JStr "guess")]
       = Some (Error 401 "Invalid credentials", st').
Proof.
  destruct (registered_account_logs_in true 5000 Sample.store None
              [("email", JStr "mira@x.com"); ("password", JStr "pw");
               ("role", JStr "manager")]
              "mira@x.com" "pw" eq_refl ltac:(discriminate) eq_refl
              ltac:(discriminate) eq_refl)
    as (user & st' & H1 & (user' & H2 & _ & _ & H3 & _) & _ & _ & H4).
  exists user, st', user'. split; [exact H1|]. split; [exact H2|].
  split; [exact H3|]. apply H4. vm_compute. discriminate.
Defined.

(** X12. A role that is none of admin, manager and telecaller is held
    back by the role gate only.  A caller whose token carries such a role
    is answered by GET /api/leads with all the leads, newest first, the
    list being narrowed for the exact role telecaller alone, and an update
    that names an allow-listed column succeeds for that caller on any
    lead; creating, deleting, importing and merging are answered 403 and
    leave the database as it is. *)
Theorem other_roles_get_every_lead production now st t user :
  jwt_verify t = Some user ->
  has_role ["admin"; "manager"] user = false ->
  is_telecaller user = false ->
  (exists rows,
      handle production now st (Some t) GET_leads = (Json (Data_rows rows), st)
      /\ Permutation rows (leads st)
      /\ StronglySorted newer_first rows)
  /\ (forall id body,
        existsb (includes allowed) (Object_keys body) = true ->
        fst (handle production now st (Some t) (PUT_lead id body)) = Json Success)
  /\ (forall id body,
        let refused := (Error 403 "Forbidden", st) in
        handle production now st (Some t) (POST_leads body) = refused
        /\ handle production now st (Some t) (DELETE_lead id) = refused
        /\ handle production now st (Some t) (POST_leads_import body) = refused
        /\ handle production now st (Some t) (POST_leads_merge body) = refused).
Proof.
  intros V R T. split; [|split].
  - eexists. split; [|split].
    + unfold handle, authMiddleware. rewrite V. unfold get_leads. reflexivity.
    + unfold select_leads. rewrite T. apply order_by_created_at_desc_perm.
    + apply order_by_created_at_desc_sorted.
  - intros id body K. unfold handle, authMiddleware. rewrite V.
    unfold put_lead. rewrite no_fields_iff, K. reflexivity.
  - intros id body refused. subst refused.
    unfold handle, authMiddleware. rewrite V. unfold requireRole. rewrite R.
    repeat split.
Qed.

(** An account whose token carries the role guest. *)
Lemma other_roles_get_every_lead_witness :
  (exists rows,
      handle true 5000 Sample.store (Some (jwt_sign (Sample.account 9 "guest"))) GET_leads
      = (Json (Data_rows rows), Sample.store)
      /\ Permutation rows (leads Sample.store))
  /\ handle true 5000 Sample.store (Some (jwt_sign (Sample.account 9 "guest")))
       (DELETE_lead 1)
     = (Error 403 "Forbidden", Sample.store).
Proof.
  destruct (other_roles_get_every_lead true 5000 Sample.store
              (jwt_sign (Sample.account 9 "guest")) (Sample.account 9 "guest")
              eq_refl eq_refl eq_refl)
    as ((rows & H1 & H2 & _) & _ & H3).
  split.
  - exists rows. split; [exact H1 | exact H2].
  - exact (proj1 (proj2 (H3 1 []))).
Defined.

(** *** Deleting and rewriting accounts *)

Lemma find_nowhere {A : Type} (p : A -> bool) xs :
  (forall x, In x xs -> p x = false) -> find p xs = None.
Proof.
  induction xs as [|x xs IH]; cbn [find In]; intros H; [reflexivity|].
  rewrite (H x) by now left. apply IH. intros y Hy. apply H. now right.
Qed.

(** X19. Deleting an account does not revoke its token.  Once an admin or
    a manager, with a token in its time, has deleted an account that had
    just registered, a login with its email and password is answered 401,
    yet the token the account got when it registered is accepted for as
    long as any token is: until eight hours after the registration the
    list route goes on answering it, and from then on it is answered 401
    Invalid token. *)
Theorem deleted_account_keeps_its_token production now now2 now3 st body e pw ta admin :
  get body "email" = Some (JStr e) -> e <> EmptyString ->
  get body "password" = Some (JStr pw) -> pw <> EmptyString ->
  existsb (fun u => text_eqb (User.email u) (Some e)) (users st) = false ->
  Lifetime.verify now2 ta = Some admin ->
  has_role ["admin"; "manager"] admin = true ->
  exists user st1 st2,
    let t := Lifetime.sign now user in
    Lifetime.handle production now st None (POST_auth_register body)
    = (Json (Session (Lifetime.bearer t) user), st1)
    /\ Lifetime.handle_account production now2 st1 (Some ta)
         (DELETE_user (Payload.id user))
       = Some (Json Success, st2)
    /\ (forall u, In u (users st2) -> User.id u <> Payload.id user)
    /\ login st2 [("email", JStr e); ("password", JStr pw)]
       = Some (Error 401 "Invalid credentials", st2)
    /\ (Lifetime.clockTimestamp now3 < Lifetime.clockTimestamp now + Lifetime.expiresIn ->
        exists rows,
          Lifetime.handle production now3 st2 (Some t) GET_leads
          = (Json (Data_rows rows), st2))
    /\ (Lifetime.clockTimestamp now + Lifetime.expiresIn <= Lifetime.clockTimestamp now3 ->
        Lifetime.handle production now3 st2 (Some t) GET_leads
        = (Error 401 "Invalid token", st2)).
Proof.
  intros He Hne Hp Hpw Hfree Va Ra.
  assert (Te : truthy (JStr e) = true).
  { cbn. destruct (String.eqb e EmptyString) eqn:E; [|reflexivity].
    apply String.eqb_eq in E. contradiction. }
  assert (Tp : truthy (JStr pw) = true).
  { cbn. destruct (String.eqb pw EmptyString) eqn:E; [|reflexivity].
    apply String.eqb_eq in E. contradiction. }
  assert (Va' : jwt_verify (Lifetime.bearer ta) = Some admin).
  { unfold Lifetime.verify in Va.
    destruct (jwt_verify (Lifetime.bearer ta)) as [p|]; [|discriminate].
    destruct (Z.leb (Lifetime.exp ta) (Lifetime.clockTimestamp now2)); [discriminate|].
    exact Va. }
  eexists. eexists. eexists. cbv zeta. split.
  { unfold Lifetime.handle, Backend.handle, register. rewrite He, Hp, Te, Tp.
    cbn [negb orb]. cbn [User.email bind_text]. rewrite Hfree. reflexivity. }
  split.
  { unfold Lifetime.handle_account, Lifetime.authMiddleware. rewrite Va.
    cbn [option_map]. unfold Accounts.handle, authMiddleware. rewrite Va'.
    unfold requireRole. rewrite Ra. unfold delete_user. reflexivity. }
  cbn [users audit with_users insert_user Payload.id User.id].
  split; [|split; [|split]].
  - intros u Hu. apply filter_In in Hu. destruct Hu as [_ Hu].
    now apply negb_true_iff, Z.eqb_neq in Hu.
  - unfold login. cbn [users audit with_users insert_user get String.eqb Ascii.eqb
                         Bool.eqb andb bind_text].
    rewrite find_nowhere; [reflexivity|].
    intros u Hu. apply filter_In in Hu. destruct Hu as [Hu Hid].
    apply in_app_or in Hu. destruct Hu as [Hu|[<-|[]]].
    + destruct (text_eqb (User.email u) (Some e)) eqn:M; [|reflexivity].
      assert (X : existsb (fun u0 => text_eqb (User.email u0) (Some e)) (users st) = true)
        by (apply existsb_exists; eauto).
      congruence.
    + cbn [User.id] in Hid. now rewrite Z.eqb_refl in Hid.
  - intros Hin. eexists.
    unfold Lifetime.handle, Lifetime.authMiddleware, Lifetime.verify, Lifetime.exp.
    cbn [Lifetime.sign Lifetime.bearer Lifetime.iat jwt_verify jwt_sign].
    replace (Z.leb _ _) with false by (symmetry; apply Z.leb_gt; lia).
    cbn [option_map Lifetime.bearer]. unfold Backend.handle, authMiddleware.
    cbn [jwt_verify]. reflexivity.
  - intros Hout.
    unfold Lifetime.handle, Lifetime.authMiddleware, Lifetime.verify, Lifetime.exp.
    cbn [Lifetime.sign Lifetime.bearer Lifetime.iat jwt_verify jwt_sign].
    replace (Z.leb _ _) with true by (symmetry; apply Z.leb_le; lia).
    reflexivity.
Qed.

(** On the sample store: registered at second 5, deleted at second 6; the
    token is answered an hour later and refused a day later. *)
Lemma deleted_account_keeps_its_token_witness :
  exists user st1 st2 rows,
    Lifetime.handle true 5000 Sample.store None
      (POST_auth_register [("email", JStr "mira@x.com"); ("password", JStr "pw")])
    = (Json (Session (jwt_sign user) user), st1)
    /\ Lifetime.handle_account true 6000 st1
         (Some (Lifetime.sign 0 (Sample.account 1 "admin")))
         (DELETE_user (Payload.id user))
       = Some (Json Success, st2)
    /\ login st2 [("email", JStr "mira@x.com"); ("password", JStr "pw")]
       = Some (Error 401 "Invalid credentials", st2)
    /\ Lifetime.handle true 3605000 st2 (Some (Lifetime.sign 5000 user)) GET_leads
       = (Json (Data_rows rows), st2).
Proof.
  destruct (deleted_account_keeps_its_token true 5000 6000 3605000 Sample.store
              [("email", JStr "mira@x.com"); ("password", JStr "pw")]
              "mira@x.com" "pw" (Lifetime.sign 0 (Sample.account 1 "admin"))
              (Sample.account 1 "admin")
              eq_refl ltac:(discriminate) eq_refl ltac:(discriminate)
              eq_refl eq_refl eq_refl)
    as (user & st1 & st2 & H1 & H2 & _ & H3 & H4 & _).
  destruct (H4 ltac:(vm_compute; reflexivity)) as (rows & H5).
  exists user, st1, st2, rows. auto.
Defined.

(** X20. PUT /api/users/:id rewrites name, email, role, theme and daily
    target from the body whether the body names them or not.  So when an
    admin or a manager sends an update that leaves the email out, for an
    account that could log in, the update succeeds and the account can no
    longer log in: its email is NULL, and the login is answered 401.  The
    password, the suspended flag and the creation time stay, and no
    account is added or removed. *)
Theorem update_without_email_locks_the_account now st user id body row e pw :
  find (fun u => text_eqb (User.email u) (Some e)) (users st) = Some row ->
  User.id row = id ->
  User.password row = Bcrypt pw ->
  (forall u, In u (users st) -> User.email u = Some e -> User.id u = id) ->
  get body "email" = None ->
  let creds := [("email", JStr e); ("password", JStr pw)] in
  let out := put_user now st user id body in
  (exists t payload, login st creds = Some (Json (Session t payload), st))
  /\ fst out = Json Success
  /\ login (snd out) creds = Some (Error 401 "Invalid credentials", snd out)
  /\ Forall2 (fun u u' =>
                User.id u' = User.id u
                /\ User.password u' = User.password u
                /\ User.suspended u' = User.suspended u
                /\ User.created_at u' = User.created_at u
                /\ (if Z.eqb (User.id u) id
                    then User.email u' = None
                         /\ User.role u' = bind_text (get body "role")
                         /\ User.name u' = bind_text (get body "name")
                    else u' = u))
       (users st) (users (snd out)).
Proof.
  intros F Hid Hpw Huniq Hb creds out.
  assert (S1 : fst out = Json Success /\
               users (snd out)
               = map (fun u =>
                        if Z.eqb (User.id u) id
                        then {| User.id := User.id u;
                                User.name := bind_text (get body "name");
                                User.email := None;
                                User.password := User.password u;
                                User.role := bind_text (get body "role");
                                User.theme := bind_text (get body "theme");
                                User.daily_target := bind_int (get body "daily_target");
                                User.suspended := User.suspended u;
                                User.created_at := User.created_at u |}
                        else u) (users st)).
  { subst out. unfold put_user. rewrite Hb. cbn [bind_text].
    assert (Z : existsb (fun u => negb (Z.eqb (User.id u) id) && text_eqb (User.email u) None)
                  (users st) = false).
    { clear. induction (users st) as [|u us IH]; cbn [existsb]; [reflexivity|].
      rewrite IH. unfold text_eqb. destruct (User.email u); now rewrite andb_false_r. }
    rewrite Z, andb_false_r. cbn [fst snd users audit with_users]. split; reflexivity. }
  destruct S1 as [S1 S2].
  split; [|split; [exact S1|split]].
  - unfold login. cbn [get String.eqb Ascii.eqb Bool.eqb andb bind_text creds].
    rewrite F, Hpw. cbn [compareSync]. rewrite String.eqb_refl. cbn [negb]. eauto.
  - unfold login. cbn [get String.eqb Ascii.eqb Bool.eqb andb bind_text creds].
    rewrite S2, find_nowhere; [reflexivity|].
    intros u' Hu'. apply in_map_iff in Hu'. destruct Hu' as (u & <- & Hu).
    destruct (Z.eqb (User.id u) id) eqn:E; [reflexivity|].
    unfold text_eqb. destruct (User.email u) as [e'|] eqn:Em; [|reflexivity].
    destruct (String.eqb e' e) eqn:Ee; [|reflexivity].
    apply String.eqb_eq in Ee. subst e'. apply Z.eqb_neq in E.
    exfalso. apply E. now apply Huniq.
  - rewrite S2. clear. induction (users st) as [|u us IH]; cbn [map]; constructor; [|exact IH].
    destruct (Z.eqb (User.id u) id); cbn; repeat split.
Qed.

(** An update that only names the account. *)
Lemma update_without_email_locks_the_account_witness :
  let row := {| User.id := 1; User.name := Some "Mira"; User.email := Some "mira@x.com";
                User.password := Bcrypt "pw"; User.role := Some "manager";
                User.theme := Some "light"; User.daily_target := None;
                User.suspended := 0; User.created_at := 0 |} in
  let st := {| users := [row]; leads := []; call_logs := []; audit_logs := [];
               seq_users := 1; seq_leads := 0; seq_calls := 0; seq_audit := 0 |} in
  let out := put_user 5000 st (Sample.account 9 "admin") 1 [("name", JStr "Mira K")] in
  fst out = Json Success
  /\ login (snd out) [("email", JStr "mira@x.com"); ("password", JStr "pw")]
     = Some (Error 401 "Invalid credentials", snd out).
Proof.
  cbv zeta.
  match goal with
  | |- fst (put_user _ ?st _ _ _) = _ /\ _ =>
      destruct (update_without_email_locks_the_account 5000 st (Sample.account 9 "admin")
                  1 [("name", JStr "Mira K")]
                  {| User.id := 1; User.name := Some "Mira"; User.email := Some "mira@x.com";
                     User.password := Bcrypt "pw"; User.role := Some "manager";
                     User.theme := Some "light"; User.daily_target := None;
                     User.suspended := 0; User.created_at := 0 |}
                  "mira@x.com" "pw" eq_refl eq_refl eq_refl)
        as (_ & H1 & H2 & _)
  end.
  - intros u [<-|[]] _. reflexivity.
  - reflexivity.
  - split; [exact H1 | exact H2].
Defined.

(** X21. An account an admin or a manager creates through POST /api/users
    can log in at once with the email and the password of the body: the
    answer to the creation gives the new id and no token, the login gives a
    token for that id, with the role of the body, or telecaller when the
    body has no role. *)
Theorem created_account_logs_in production now st auth admin body e pw :
  authMiddleware production st auth = inl admin ->
  has_role ["admin"; "manager"] admin = true ->
  get body "email" = Some (JStr e) -> e <> EmptyString ->
  get body "password" = Some (JStr pw) -> pw <> EmptyString ->
  existsb (fun u => text_eqb (User.email u) (Some e)) (users st) = false ->
  exists st' user',
    Accounts.handle production now st auth (POST_users body)
    = Some (Json (Data_id (seq_users st + 1)), st')
    /\ login st' [("email", JStr e); ("password", JStr pw)]
       = Some (Json (Session (jwt_sign user') user'), st')
    /\ Payload.id user' = seq_users st + 1
    /\ Payload.role user'
       = col_json (bind_text (Some (or_else (get body "role") (JStr "telecaller"))))
    /\ (get body "role" = None -> Payload.role user' = JStr "telecaller").
Proof.
  intros A R He Hne Hp Hpw Hfree.
  assert (Te : truthy (JStr e) = true).
  { cbn. destruct (String.eqb e EmptyString) eqn:E; [|reflexivity].
    apply String.eqb_eq in E. contradiction. }
  assert (Tp : truthy (JStr pw) = true).
  { cbn. destruct (String.eqb pw EmptyString) eqn:E; [|reflexivity].
    apply String.eqb_eq in E. contradiction. }
  eexists. eexists. split.
  { unfold Accounts.handle, requireRole. rewrite A, R. unfold post_user.
    rewrite He, Hp. cbn [truthy_opt]. rewrite Te, Tp. cbn [negb orb].
    cbn [User.email bind_text]. rewrite Hfree. reflexivity. }
  split.
  { unfold login. cbn [users audit insert_user get String.eqb Ascii.eqb Bool.eqb andb
                        bind_text].
    rewrite find_last_user; [|exact Hfree|cbn; apply String.eqb_refl].
    cbn [User.password compareSync]. rewrite String.eqb_refl. reflexivity. }
  cbn [Payload.id Payload.role User.id User.role]. repeat split.
  now intros ->.
Qed.

(** On the sample store. *)
Lemma created_account_logs_in_witness :
  exists st' user',
    Accounts.handle true 5000 Sample.store Sample.admin
      (POST_users [("email", JStr "ravi@x.com"); ("password", JStr "pw")])
    = Some (Json (Data_id 4), st')
    /\ login st' [("email", JStr "ravi@x.com"); ("password", JStr "pw")]
       = Some (Json (Session (jwt_sign user') user'), st')
    /\ Payload.role user' = JStr "telecaller".
Proof.
  destruct (created_account_logs_in true 5000 Sample.store Sample.admin
              (Sample.account 1 "admin")
              [("email", JStr "ravi@x.com"); ("password", JStr "pw")]
              "ravi@x.com" "pw" eq_refl eq_refl eq_refl ltac:(discriminate)
              eq_refl ltac:(discriminate) eq_refl)
    as (st' & user' & H1 & H2 & _ & _ & H3).
  exists st', user'. split; [exact H1|]. split; [exact H2|]. now apply H3.
Defined.

End AccountFacts.

(** ** Pages *)

Section PageFacts.
Import JS AdminDashboard AdminPage.

Lemma page_of_chunk {A : Type} (n p : Z) (arr : list A) :
  0 < n -> 1 <= p ->
  page_of n p arr = firstn (Z.to_nat n) (skipn (Z.to_nat ((p - 1) * n)) arr).
Proof.
  intros Hn Hp. unfold page_of, slice.
  set (start := (p - 1) * n). set (len := Z.of_nat (List.length arr)).
  assert (Hs : 0 <= start) by (unfold start; nia).
  destruct (Z.ltb_spec start 0) as [?|_]; [lia|].
  destruct (Z.ltb_spec (start + n) 0) as [?|_]; [lia|].
  destruct (Z.le_gt_cases len start) as [Hge|Hlt].
  - rewrite !Z.min_r by lia. rewrite Z.sub_diag. cbn [Z.to_nat firstn].
    rewrite (skipn_all2 arr) by (unfold len in Hge; lia).
    now rewrite firstn_nil.
  - rewrite (Z.min_l start len) by lia.
    destruct (Z.le_gt_cases (start + n) len) as [Hle|Hgt].
    + rewrite Z.min_l by lia. f_equal. lia.
    + rewrite Z.min_r by lia.
      rewrite !firstn_all2; [reflexivity | |];
        rewrite length_skipn; unfold len in *; lia.
Qed.

Lemma firstn_add {A : Type} (a b : nat) (l : list A) :
  firstn (a + b) l = (firstn a l ++ firstn b (skipn a l))%list.
Proof.
  revert l. induction a as [|a IH]; intros l; cbn [Nat.add firstn skipn List.app].
  - reflexivity.
  - destruct l as [|x l]; cbn [firstn skipn List.app].
    + now rewrite firstn_nil.
    + now rewrite IH.
Qed.

Lemma chunks_concat {A : Type} (n k : nat) (l : list A) :
  List.concat (map (fun i => firstn n (skipn (i * n) l)) (seq 0 k)) = firstn (k * n) l.
Proof.
  induction k as [|k IH].
  - reflexivity.
  - rewrite seq_S, map_app, concat_app, IH. cbn [map List.concat Nat.add].
    rewrite app_nil_r, <- firstn_add. f_equal. lia.
Qed.

Lemma pages_of_covers {A : Type} (n : Z) (arr : list A) :
  0 < n -> Z.of_nat (List.length arr) <= pages_of n arr * n.
Proof.
  intros Hn. unfold pages_of. set (len := Z.of_nat (List.length arr)).
  assert (L : 0 <= len) by (unfold len; lia).
  pose proof (Z.div_mod (len + n - 1) n ltac:(lia)) as D.
  pose proof (Z.mod_pos_bound (len + n - 1) n Hn) as M.
  set (q := (len + n - 1) / n) in *. set (r := (len + n - 1) mod n) in *.
  rewrite (Z.mul_comm n q) in D.
  destruct (Z.max_spec 1 q) as [[H ->]|[H ->]]; [lia|].
  assert (q * n <= 0 * n \/ 0 < q) as [Hq|Hq] by nia; nia.
Qed.

Lemma pages_concat {A : Type} (n : Z) (arr : list A) :
  0 < n ->
  List.concat (map (fun i => page_of n (Z.of_nat i + 1) arr)
            (seq 0 (Z.to_nat (pages_of n arr)))) = arr.
Proof.
  intros Hn.
  rewrite (map_ext _ (fun i => firstn (Z.to_nat n) (skipn (i * Z.to_nat n) arr))).
  - rewrite chunks_concat. apply firstn_all2.
    pose proof (pages_of_covers n arr Hn). unfold pages_of in *. nia.
  - intros i. rewrite page_of_chunk by lia. do 2 f_equal. nia.
Qed.

Lemma page_bounds {A : Type} (n p : Z) (arr : list A) :
  0 < n -> 1 <= p ->
  Z.of_nat (List.length (page_of n p arr)) <= n
  /\ (pages_of n arr < p -> page_of n p arr = []).
Proof.
  intros Hn Hp. rewrite page_of_chunk by assumption. split.
  - pose proof (firstn_le_length (Z.to_nat n)
                  (skipn (Z.to_nat ((p - 1) * n)) arr)). lia.
  - intros Hlt. rewrite skipn_all2; [now rewrite firstn_nil|].
    pose proof (pages_of_covers n arr Hn). nia.
Qed.

(** X13. The pages of the three dashboards split the list they show: put
    one after the other, the pages 1 to the number of page buttons give
    back the list, each row once and in order; no page holds more rows than
    the page size (10 for the admin, 8 for the manager and the telecaller),
    and a page after the last one is empty. *)
Theorem pages_split_the_list (arr : list Backend.Lead.t) :
  (List.concat (map (fun i => paginated (Z.of_nat i + 1) arr)
             (seq 0 (Z.to_nat (page_buttons arr)))) = arr
   /\ forall page, 1 <= page ->
        Z.of_nat (List.length (paginated page arr)) <= 10
        /\ (page_buttons arr < page -> paginated page arr = []))
  /\ (List.concat (map (fun i => ManagerDashboard.pagedLeads (Z.of_nat i + 1) arr)
                (seq 0 (Z.to_nat (ManagerDashboard.totalPages arr)))) = arr
      /\ forall page, 1 <= page ->
           Z.of_nat (List.length (ManagerDashboard.pagedLeads page arr)) <= 8
           /\ (ManagerDashboard.totalPages arr < page ->
               ManagerDashboard.pagedLeads page arr = [])).
Proof.
  split; split.
  - apply (pages_concat 10). lia.
  - intros page Hp. apply (page_bounds 10); [lia | exact Hp].
  - apply (pages_concat 8). lia.
  - intros page Hp. apply (page_bounds 8); [lia | exact Hp].
Qed.

End PageFacts.

(** ** Duplicate groups and the merge button *)

Section DuplicateFacts.
Import JS Backend AdminDashboard AdminPage.

Lemma assoc_push_at k key l m :
  assoc k (push_at key l m)
  = if String.eqb key k
    then Some (match assoc key m with Some v => (v ++ [l])%list | None => [l] end)
    else assoc k m.
Proof.
  induction m as [|[k' vals] m IH]; cbn [push_at assoc].
  - destruct (String.eqb key k); reflexivity.
  - destruct (String.eqb k' key) eqn:E; cbn [assoc].
    + apply String.eqb_eq in E. subst k'.
      destruct (String.eqb key k); reflexivity.
    + rewrite IH. destruct (String.eqb key k) eqn:K; [|reflexivity].
      apply String.eqb_eq in K. subst k. now rewrite E.
Qed.

Lemma keys_push_at key l m k :
  In k (map fst (push_at key l m)) <-> In k (map fst m) \/ k = key.
Proof.
  induction m as [|[k' vals] m IH]; cbn [push_at map fst In].
  - intuition.
  - destruct (String.eqb k' key) eqn:E; cbn [map fst In].
    + apply String.eqb_eq in E. subst k'. intuition.
    + rewrite IH. intuition.
Qed.

Lemma NoDup_push_at key l m :
  NoDup (map fst m) -> NoDup (map fst (push_at key l m)).
Proof.
  induction m as [|[k' vals] m IH]; cbn [push_at map fst]; intros H.
  - constructor; [intros []|constructor].
  - inversion H as [|? ? Hk Hm]; subst.
    destruct (String.eqb k' key) eqn:E; cbn [map fst].
    + now constructor.
    + constructor; [|now apply IH].
      rewrite keys_push_at. intros [Hin | ->]; [contradiction|].
      now rewrite String.eqb_refl in E.
Qed.

Lemma group_by_key_spec leads acc :
  NoDup (map fst acc) ->
  let R := fold_left (fun acc0 l =>
                        let key := key_of l in
                        if String.eqb key EmptyString then acc0 else push_at key l acc0)
             leads acc in
  NoDup (map fst R)
  /\ forall k,
       assoc k R
       = match members k leads with
         | [] => assoc k acc
         | m => Some (match assoc k acc with Some v => (v ++ m)%list | None => m end)
         end.
Proof.
  revert acc. induction leads as [|l leads IH]; intros acc Hacc; cbn [fold_left].
  - split; [exact Hacc | reflexivity].
  - cbv zeta. rewrite key_of_nonempty.
    destruct (IH (push_at (key_of l) l acc) (NoDup_push_at _ _ _ Hacc)) as [Hn Hk].
    split; [exact Hn|].
    intros k. cbv zeta in Hk. rewrite Hk, assoc_push_at.
    unfold members. cbn [filter]. fold (members k leads).
    destruct (String.eqb (key_of l) k) eqn:E.
    + apply String.eqb_eq in E. rewrite E.
      destruct (members k leads) as [|m ms]; destruct (assoc k acc) as [v|];
        rewrite <- ?app_assoc; reflexivity.
    + reflexivity.
Qed.

Lemma In_assoc k vals m :
  NoDup (map fst m) -> (In (k, vals) m <-> assoc k m = Some vals).
Proof.
  induction m as [|[k' v] m IH]; cbn [map fst In assoc]; intros H.
  - split; [intros [] | discriminate].
  - inversion H as [|? ? Hk Hm]; subst.
    destruct (String.eqb k' k) eqn:E.
    + apply String.eqb_eq in E. subst k'. split.
      * intros [Heq|Hin]; [now inversion Heq|].
        exfalso. apply Hk. apply in_map_iff. now exists (k, vals).
      * intros Heq. inversion Heq. now left.
    + apply String.eqb_neq in E. rewrite <- (IH Hm). split.
      * intros [Heq|Hin]; [inversion Heq; contradiction | exact Hin].
      * now right.
Qed.

Lemma In_findDuplicates leads k vals :
  In (k, vals) (findDuplicates leads) <->
  vals = members k leads /\ (2 <= List.length vals)%nat.
Proof.
  destruct (group_by_key_spec leads [] (NoDup_nil _)) as [Hn Hk].
  cbv zeta in Hk. fold (group_by_key leads) in Hn, Hk.
  unfold findDuplicates. rewrite filter_In, (In_assoc _ _ _ Hn), Hk.
  cbn [snd assoc]. rewrite Nat.ltb_lt. split.
  - intros [H L]. destruct (members k leads); [discriminate|].
    inversion H; subst vals. split; [reflexivity | lia].
  - intros [-> L]. destruct (members k leads); [cbn in L; lia|].
    split; [reflexivity | lia].
Qed.

(** X14. The groups of [findDuplicates] are the classes of the composite
    key with two members or more: a pair is a group exactly when its leads
    are all the leads of its key, in the order of the list, and there are
    at least two of them; no key has two groups. *)
Theorem findDuplicates_groups_by_key leads :
  (forall k vals,
      In (k, vals) (findDuplicates leads) <->
      vals = members k leads /\ (2 <= List.length vals)%nat)
  /\ NoDup (map fst (findDuplicates leads)).
Proof.
  split.
  - intros k vals. apply In_findDuplicates.
  - destruct (group_by_key_spec leads [] (NoDup_nil _)) as [Hn _].
    fold (group_by_key leads) in Hn.
    unfold findDuplicates. now apply NoDup_map_filter.
Qed.

Lemma manager_is_no_telecaller user :
  has_role ["admin"; "manager"] user = true -> is_telecaller user = false.
Proof.
  unfold has_role, is_telecaller.
  destruct (Payload.role user) as [| | |r| |]; try discriminate.
  cbn [includes existsb]. intros H.
  destruct (String.eqb r "telecaller") eqn:E; [|reflexivity].
  apply String.eqb_eq in E. subst r. discriminate H.
Qed.

Lemma same_id_same_lead (rows : list Lead.t) x y :
  NoDup (map Lead.id rows) -> In x rows -> In y rows -> Lead.id x = Lead.id y -> x = y.
Proof.
  induction rows as [|r rows IH]; cbn [map In]; intros H Hx Hy E; [contradiction|].
  inversion H as [|? ? Hr Hrows]; subst.
  destruct Hx as [-> | Hx], Hy as [-> | Hy]; auto.
  - exfalso. apply Hr. rewrite E. now apply in_map.
  - exfalso. apply Hr. rewrite <- E. now apply in_map.
Qed.

Lemma all_same_id_short (rows : list Lead.t) c :
  NoDup (map Lead.id rows) -> (forall x, In x rows -> Lead.id x = c) ->
  (List.length rows <= 1)%nat.
Proof.
  destruct rows as [|x [|y rows]]; cbn [List.length]; try lia.
  intros H Hc. exfalso. inversion H as [|? ? Hx _]; subst. apply Hx.
  left. rewrite (Hc x), (Hc y); cbn; auto.
Qed.

Lemma filter_nil_all {A : Type} (p : A -> bool) xs :
  filter p xs = [] -> forall x, In x xs -> p x = false.
Proof.
  induction xs as [|y xs IH]; cbn [filter In]; intros H x Hx; [contradiction|].
  destruct (p y) eqn:E; [discriminate|].
  destruct Hx as [-> | Hx]; auto.
Qed.

(** X15. From the list to the merge button to the store.  An admin or a
    manager fetches the leads, [findDuplicates] shows a group, and the
    button Keep this of a member [v] is pressed: as long as the ids of the
    store are distinct and the id of [v] is not 0, a merge request goes out
    and succeeds, [v] is still in the store afterwards, every other member
    of the group is gone, and every lead outside the group is still
    there. *)
Theorem keep_this_merges_the_others production now st auth user k vals v :
  authMiddleware production st auth = inl user ->
  has_role ["admin"; "manager"] user = true ->
  NoDup (map Lead.id (leads st)) ->
  In (k, vals) (findDuplicates (fetched_leads (get_leads st user))) ->
  In v vals ->
  Lead.id v <> 0 ->
  exists req st',
    keep_this vals v = Some req
    /\ handle production now st auth req = (Json Success, st')
    /\ In v (leads st')
    /\ (forall x, In x vals -> x <> v -> ~ In x (leads st'))
    /\ (forall l, In l (leads st) -> ~ In l vals -> In l (leads st')).
Proof.
  intros A R Hnd Hg Hv Hid.
  pose proof (manager_is_no_telecaller _ R) as T.
  assert (P : Permutation (fetched_leads (get_leads st user)) (leads st)).
  { unfold get_leads, fetched_leads, select_leads. rewrite T.
    apply order_by_created_at_desc_perm. }
  set (ui := fetched_leads (get_leads st user)) in *.
  apply In_findDuplicates in Hg. destruct Hg as [Hvals Hlen].
  assert (Sub : forall x, In x vals -> In x (leads st)).
  { intros x Hx. apply (Permutation_in _ P). rewrite Hvals in Hx.
    unfold members in Hx. apply filter_In in Hx. tauto. }
  assert (NDv : NoDup (map Lead.id vals)).
  { rewrite Hvals. unfold members. apply NoDup_map_filter.
    apply (Permutation_NoDup (l := map Lead.id (leads st))); [|exact Hnd].
    apply Permutation_map, Permutation_sym, P. }
  set (others := filter (fun x => negb (Z.eqb (Lead.id x) (Lead.id v))) vals).
  assert (Hothers : others <> []).
  { intros E.
    assert (Hall : forall x, In x vals -> Lead.id x = Lead.id v).
    { intros x Hx. pose proof (filter_nil_all _ _ E x Hx) as F. cbn beta in F.
      apply negb_false_iff in F. now apply Z.eqb_eq. }
    pose proof (all_same_id_short vals (Lead.id v) NDv Hall). lia. }
  assert (InIds : forall i, In i (map Lead.id others) <->
                            exists x, In x vals /\ Lead.id x <> Lead.id v /\ Lead.id x = i).
  { intros i. rewrite in_map_iff. split.
    - intros (x & <- & Hx). apply filter_In in Hx. destruct Hx as [Hx Hn].
      apply negb_true_iff, Z.eqb_neq in Hn. eauto.
    - intros (x & Hx & Hn & <-). exists x. split; [reflexivity|].
      apply filter_In. split; [exact Hx|]. now apply negb_true_iff, Z.eqb_neq. }
  exists (POST_leads_merge
            [("keepId", JNum (Lead.id v));
             ("mergeIds", JArr (map JNum (map Lead.id others)))]).
  eexists. split.
  { unfold keep_this, mergeLeads. fold others. cbn [int_truthy].
    destruct (Z.eqb (Lead.id v) 0) eqn:E; [apply Z.eqb_eq in E; contradiction|].
    assert (L : Nat.eqb (List.length (map Lead.id others)) 0 = false).
    { destruct others; [contradiction Hothers; reflexivity | reflexivity]. }
    rewrite L. reflexivity. }
  split.
  { unfold handle, requireRole. rewrite A, R. unfold merge_leads.
    cbn [get String.eqb Ascii.eqb Bool.eqb andb truthy].
    destruct (Z.eqb (Lead.id v) 0) eqn:E; [apply Z.eqb_eq in E; contradiction|].
    cbn [negb]. reflexivity. }
  cbn [leads audit with_leads].
  assert (Keep : forall l, In l (leads st) ->
                           (In l (filter (fun l0 => negb (existsb (id_eq (Lead.id l0))
                                                            (map JNum (map Lead.id others))))
                                    (leads st))
                            <-> ~ In (Lead.id l) (map Lead.id others))).
  { intros l Hl. rewrite filter_In, negb_true_iff, <- not_true_iff_false, existsb_id_eq.
    tauto. }
  split; [|split].
  - apply Keep; [now apply Sub|].
    rewrite InIds. intros (x & _ & Hn & E). contradiction.
  - intros x Hx Hne Hin. apply filter_In in Hin. destruct Hin as [Hin Hf].
    apply negb_true_iff in Hf. apply not_true_iff_false in Hf. apply Hf.
    apply existsb_id_eq. apply InIds. exists x. repeat split; [exact Hx|].
    intros E. apply Hne. apply (same_id_same_lead (leads st)); auto.
  - intros l Hl Hout. apply Keep; [exact Hl|].
    rewrite InIds. intros (x & Hx & _ & E). apply Hout.
    now rewrite <- (same_id_same_lead (leads st) x l Hnd (Sub x Hx) Hl E).
Qed.

(** Two leads with the same phone and email, and a third one. *)
Lemma keep_this_merges_the_others_witness :
  let st := {| users := [];
               leads := [Sample.blank 1 (Some "555-1") (Some "a@x.com");
                         Sample.blank 2 (Some "555-1") (Some "a@x.com");
                         Sample.blank 3 (Some "555-2") None];
               call_logs := []; audit_logs := [];
               seq_users := 0; seq_leads := 3; seq_calls := 0; seq_audit := 0 |} in
  let group := [Sample.blank 1 (Some "555-1") (Some "a@x.com");
                Sample.blank 2 (Some "555-1") (Some "a@x.com")] in
  exists req st',
    keep_this group (Sample.blank 1 (Some "555-1") (Some "a@x.com")) = Some req
    /\ handle true 5000 st Sample.admin req = (Json Success, st')
    /\ map Lead.id (leads st') = [1; 3].
Proof.
  cbv zeta.
  match goal with
  | |- exists req st', keep_this ?g ?v = _ /\ handle _ _ ?st _ _ = _ /\ _ =>
      destruct (keep_this_merges_the_others true 5000 st Sample.admin
                  (Sample.account 1 "admin") "555-1|a@x.com" g v eq_refl eq_refl)
        as (req & st' & H1 & H2 & _)
  end.
  - repeat constructor; cbn; intuition discriminate.
  - left. reflexivity.
  - left. reflexivity.
  - discriminate.
  - exists req, st'. split; [exact H1|]. split; [exact H2|].
    cbn in H1. inversion H1; subst req. cbn in H2. inversion H2. reflexivity.
Defined.

End DuplicateFacts.

(** ** Filters and scores *)

Section FilterFacts.
Import JS Backend AdminDashboard AdminPage.

Lemma filter_if_filter {A : Type} (c : bool) (p : A -> bool) xs :
  filter_if c p xs = filter (fun x => negb c || p x) xs.
Proof.
  unfold filter_if. destruct c; cbn [negb orb]; [reflexivity|].
  now rewrite filter_true.
Qed.

Lemma filteredLeads_is_a_filter f :
  exists p, forall leads, filteredLeads f leads = filter p leads.
Proof.
  eexists. intros leads. unfold filteredLeads. cbv zeta.
  rewrite !filter_if_filter.
  assert (D : forall (d : date_text) (g : Z -> Lead.t -> bool) xs,
             match d with
             | NoDate => xs
             | InvalidDate => filter (fun _ => false) xs
             | Instant a => filter (g a) xs
             end
             = filter (fun l => match d with
                                | NoDate => true
                                | InvalidDate => false
                                | Instant a => g a l
                                end) xs).
  { intros d g xs. destruct d; [now rewrite filter_true | reflexivity | reflexivity]. }
  rewrite (D (dateTo f) (fun b l => match Lead.created_at l with
                                    | Some t => Z.leb t b
                                    | None => false
                                    end)).
  rewrite (D (dateFrom f) (fun a l => match Lead.created_at l with
                                      | Some t => Z.leb a t
                                      | None => false
                                      end)).
  rewrite !filter_filter. reflexivity.
Qed.

Lemma filter_idem {A : Type} (p : A -> bool) xs : filter p (filter p xs) = filter p xs.
Proof.
  rewrite filter_filter. apply filter_ext. intros x. now destruct (p x).
Qed.

(** X16. The filters of the admin's leads tab judge each lead on its own:
    the rows shown for a list are rows of the list (none is made up), in
    the order of the list, so a list that comes newest first is shown
    newest first; filtering two lists one after the other is filtering
    their concatenation, filtering twice is filtering once, and with every
    filter empty the whole list is shown. *)
Theorem filteredLeads_keeps_rows_and_order f leads more :
  (forall l, In l (filteredLeads f leads) -> In l leads)
  /\ (StronglySorted newer_first leads ->
      StronglySorted newer_first (filteredLeads f leads))
  /\ filteredLeads f (leads ++ more)
     = (filteredLeads f leads ++ filteredLeads f more)%list
  /\ filteredLeads f (filteredLeads f leads) = filteredLeads f leads
  /\ filteredLeads
       {| searchTerm := EmptyString; filterStatus := EmptyString;
          filterType := EmptyString; filterUser := EmptyString;
          dateFrom := NoDate; dateTo := NoDate |} leads = leads.
Proof.
  destruct (filteredLeads_is_a_filter f) as [p Hp].
  rewrite !Hp. repeat split.
  - intros l Hl. apply filter_In in Hl. tauto.
  - apply filter_sorted.
  - apply filter_app.
  - apply filter_idem.
Qed.

(** *** The score bands of the manager's and the telecaller's list *)


(** *** From the lead form to the stored score *)

Lemma get_app (a b : object) k :
  get (a ++ b)%list k = match get a k with Some v => Some v | None => get b k end.
Proof.
  induction a as [|[k' v] a IH]; cbn [List.app get]; [reflexivity|].
  now destruct (String.eqb k' k).
Qed.

Lemma get_text_prop k v k' :
  get (text_prop k v) k' = if String.eqb k k' then option_map JStr v else None.
Proof. destruct v; cbn; destruct (String.eqb k k'); reflexivity. Qed.

Lemma get_int_prop k v k' :
  get (int_prop k v) k' = if String.eqb k k' then option_map JNum v else None.
Proof. destruct v; cbn; destruct (String.eqb k k'); reflexivity. Qed.

Lemma get_form_body data :
  get (form_body data) "name" = option_map JStr (LeadForm.name data)
  /\ get (form_body data) "status" = option_map JStr (LeadForm.status data)
  /\ get (form_body data) "score" = option_map JNum (LeadForm.score data).
Proof.
  unfold form_body. rewrite !get_app, !get_text_prop, !get_int_prop.
  cbn [String.eqb Ascii.eqb Bool.eqb andb].
  repeat split.
  - now destruct (LeadForm.name data).
  - now destruct (LeadForm.status data).
Qed.

(** X18. From the form to the store.  When the admin's lead form has no
    score of its own, [createLead] computes one and posts it, and the lead
    is stored with the floor plus the jitter as its score, except when that
    sum is 0 (no bonus applies and the jitter is 0): the route binds
    [score || null], and the lead is stored without a score.  The name goes
    in as typed, and an empty status is stored as new. *)
Theorem created_lead_stores_computed_score production now st auth user jitter data :
  authMiddleware production st auth = inl user ->
  has_role ["admin"; "manager"] user = true ->
  int_truthy (LeadForm.score data) = false ->
  0 <= jitter < 10 ->
  let s := deterministic_floor data + jitter in
  exists row st',
    handle production now st auth (POST_leads (form_body (createLead jitter data)))
    = (Json (Data_id (seq_leads st + 1)), st')
    /\ leads st' = (leads st ++ [row])%list
    /\ Lead.score row = (if Z.eqb s 0 then None else Some s)
    /\ Lead.name row = LeadForm.name data
    /\ Lead.status row = Some (text_or (LeadForm.status data) "new").
Proof.
  intros A R Hs Hj s.
  unfold handle, requireRole. rewrite A, R. unfold post_lead.
  eexists. eexists. split; [reflexivity|]. split; [reflexivity|].
  cbn [Lead.score Lead.name Lead.status].
  destruct (get_form_body (createLead jitter data)) as (Gn & Gst & Gsc).
  rewrite Gn, Gst, Gsc. unfold createLead. rewrite Hs. cbn [negb].
  cbn [with_score LeadForm.score LeadForm.name LeadForm.status option_map].
  rewrite computeScore_floor. fold s. split; [|split].
  - cbn [or_else truthy]. destruct (Z.eqb s 0); reflexivity.
  - now destruct (LeadForm.name data).
  - destruct (LeadForm.status data) as [[|c st0]|]; reflexivity.
Qed.

(** A form with a name only and the jitter at 0: the floor is 0, and the
    lead is stored without a score. *)
Lemma created_lead_stores_computed_score_witness :
  let data := {| LeadForm.name := Some "Ravi"; LeadForm.phone := Some EmptyString;
                 LeadForm.email := Some EmptyString; LeadForm.type := Some EmptyString;
                 LeadForm.status := Some "new"; LeadForm.source := Some EmptyString;
                 LeadForm.next_follow_up := None; LeadForm.remarks := Some EmptyString;
                 LeadForm.score := None |} in
  LeadForm.score (createLead 0 data) = Some 0
  /\ exists row st',
       handle true 5000 Sample.store Sample.admin (POST_leads (form_body (createLead 0 data)))
       = (Json (Data_id 4), st')
       /\ Lead.score row = None /\ In row (leads st').
Proof.
  cbv zeta. split; [reflexivity|].
  match goal with
  | |- exists row st', handle _ _ _ _ (POST_leads (form_body (createLead 0 ?d))) = _ /\ _ =>
      destruct (created_lead_stores_computed_score true 5000 Sample.store Sample.admin
                  (Sample.account 1 "admin") 0 d eq_refl eq_refl eq_refl
                  ltac:(lia))
        as (row & st' & H1 & H2 & H3 & _)
  end.
  exists row, st'. split; [exact H1|]. split; [exact H3|].
  rewrite H2. apply in_or_app. right. now left.
Defined.

End FilterFacts.
